(** * The cereal pipeline: normalisation and selection

    A shallow embedding of [_versions/v0_pipeline.py] and
    [_versions/v3_pipeline.py], together with the fragment of pandas the two
    files call: column labels and their case mapping, label lookup,
    [rename], [sort_values], [iloc] and [Series.__getitem__].

    A [DataFrame] is a Python object: [preprocess_cereals] assigns to
    [df.columns] of the frame its caller passed in, so frames live in a store
    and the functions of the pipeline are written in a state-and-exception
    monad over that store. *)

From Stdlib Require Import ZArith String Ascii List Bool Lia.
From Stdlib Require Import Sorting.Permutation Sorting.Sorted.
From stdpp Require Import base list.
Import ListNotations.

Local Open Scope string_scope.
Local Open Scope list_scope.

(** ** Python values and exceptions *)

(** A cell of a table.  Numeric cells are integers: floating point values and
    NaN are outside the model. *)
Inductive value : Type :=
  | VInt (z : Z)
  | VStr (s : string).

(** The exceptions the modelled code can raise, with their argument. *)
Inductive exn : Type :=
  | ValueError (msg : string)
  | KeyError (key : string)
  | IndexError (msg : string).

Inductive result (A : Type) : Type :=
  | Return (a : A)
  | Raise (e : exn).
Arguments Return {A} a.
Arguments Raise {A} e.

(** ** Column labels: [str.lower] and [str.upper]

    Labels are Python [str]; here they are byte strings holding the UTF-8
    encoding.  The case mappings are exact on ASCII.  Outside ASCII the model
    knows the two code points whose upper case is a single ASCII letter,
    U+0131 (dotless i, bytes C4 B1, upper case [I]) and U+017F (long s, bytes
    C5 BF, upper case [S]); both are lower case already.  Every other byte is
    left as it is: no other code point maps, in either direction, to letters
    that occur in [name], [brand], [protein] or [calories], the labels the
    pipeline looks up. *)

Definition ascii_lower (c : ascii) : ascii :=
  let n := nat_of_ascii c in
  if (65 <=? n)%nat && (n <=? 90)%nat then ascii_of_nat (n + 32) else c.

Definition ascii_upper (c : ascii) : ascii :=
  let n := nat_of_ascii c in
  if (97 <=? n)%nat && (n <=? 122)%nat then ascii_of_nat (n - 32) else c.

Fixpoint str_lower (s : string) : string :=
  match s with
  | EmptyString => EmptyString
  | String c r => String (ascii_lower c) (str_lower r)
  end.

Definition dotless_i : string := String "196" (String "177" EmptyString).
Definition long_s : string := String "197" (String "191" EmptyString).

Definition is_dotless_i (c1 c2 : ascii) : bool :=
  Ascii.eqb c1 "196" && Ascii.eqb c2 "177".

Definition is_long_s (c1 c2 : ascii) : bool :=
  Ascii.eqb c1 "197" && Ascii.eqb c2 "191".

Fixpoint str_upper (s : string) : string :=
  match s with
  | EmptyString => EmptyString
  | String c r =>
      match r with
      | EmptyString => String (ascii_upper c) EmptyString
      | String c' r' =>
          if is_dotless_i c c' then String "I" (str_upper r')
          else if is_long_s c c' then String "S" (str_upper r')
          else String (ascii_upper c) (str_upper r)
      end
  end.

(** A label is plain ASCII when each of its bytes is below 128. *)
Fixpoint is_ascii (s : string) : bool :=
  match s with
  | EmptyString => true
  | String c r => (nat_of_ascii c <? 128)%nat && is_ascii r
  end.

(** ** Columns and frames *)

(** A column has one dtype: [int64] or [object] holding [str]. *)
Inductive column : Type :=
  | IntCol (xs : list Z)
  | StrCol (xs : list string).

Definition col_length (c : column) : nat :=
  match c with
  | IntCol xs => length xs
  | StrCol xs => length xs
  end.

(** The cell at position [i].  Positions are always in range where the model
    uses it on a frame whose columns have one length; the default only makes
    the function total. *)
Definition cell (c : column) (i : nat) : value :=
  match c with
  | IntCol xs => VInt (nth i xs 0%Z)
  | StrCol xs => VStr (nth i xs "")
  end.

(** [arr.take(indexer)]. *)
Definition take_col (indexer : list nat) (c : column) : column :=
  match c with
  | IntCol xs => IntCol (map (fun i => nth i xs 0%Z) indexer)
  | StrCol xs => StrCol (map (fun i => nth i xs "") indexer)
  end.

(** A frame is its columns in order, each with its label.  Labels may repeat,
    as pandas allows. *)
Definition DataFrame : Type := list (string * column).

(** [df.columns] *)
Definition columns (df : DataFrame) : list string := map fst df.

(** [df.columns.str.lower()] and [df.columns.str.upper()] *)
Definition index_str_lower (labels : list string) : list string :=
  map str_lower labels.
Definition index_str_upper (labels : list string) : list string :=
  map str_upper labels.

(** The frame with its labels replaced, position by position.  pandas
    refuses a list of another length; the pipeline only ever assigns the
    case-mapped labels of the frame itself. *)
Definition with_columns (labels : list string) (df : DataFrame) : DataFrame :=
  combine labels (map snd df).

(** [key in df.columns] *)
Definition contains (key : string) (labels : list string) : bool :=
  existsb (String.eqb key) labels.

(** [df.rename({old: new}, axis=1)]: a new frame, every label equal to [old]
    replaced. *)
Definition rename_label (old new h : string) : string :=
  if String.eqb h old then new else h.

Definition rename_columns (old new : string) (df : DataFrame) : DataFrame :=
  map (fun hc => (rename_label old new (fst hc), snd hc)) df.

(** [len(df)] *)
Definition nrows (df : DataFrame) : nat :=
  match df with
  | [] => 0
  | (_, c) :: _ => col_length c
  end.

Definition take (indexer : list nat) (df : DataFrame) : DataFrame :=
  map (fun hc => (fst hc, take_col indexer (snd hc))) df.

(** [df._get_label_or_level_values(key)]: the values of the one column
    labelled [key]. *)
Definition get_label_values (df : DataFrame) (key : string) : result column :=
  match List.filter (fun hc => String.eqb (fst hc) key) df with
  | [] => Raise (KeyError key)
  | [(_, c)] => Return c
  | _ =>
      Raise (ValueError
               (String.append "The column label '"
                  (String.append key "' is not unique.")))
  end.

(** A row taken out of a frame: a [Series] indexed by the column labels. *)
Definition Series : Type := list (string * value).

(** What [row[key]] evaluates to: the cell, or the sub-series of all cells
    under a repeated label. *)
Inductive pyobj : Type :=
  | Scalar (v : value)
  | SubSeries (s : Series).

(** [df.iloc[i]] *)
Definition iloc (df : DataFrame) (i : nat) : result Series :=
  if (i <? nrows df)%nat
  then Return (map (fun hc => (fst hc, cell (snd hc) i)) df)
  else Raise (IndexError "single positional indexer is out-of-bounds").

(** [row[key]] *)
Definition getitem (row : Series) (key : string) : result pyobj :=
  match List.filter (fun hv => String.eqb (fst hv) key) row with
  | [] => Raise (KeyError key)
  | [(_, v)] => Return (Scalar v)
  | vs => Return (SubSeries vs)
  end.

(** ** Sorting *)

(** Insertion sort of row positions; [before i j] says that [i] may stand in
    front of [j].  An element is never moved past one it may stand in front
    of, so the sort is stable. *)
Fixpoint insert_pos (before : nat -> nat -> bool) (i : nat) (l : list nat)
  : list nat :=
  match l with
  | [] => [i]
  | j :: l' => if before i j then i :: j :: l' else j :: insert_pos before i l'
  end.

Fixpoint stable_sort (before : nat -> nat -> bool) (l : list nat) : list nat :=
  match l with
  | [] => []
  | i :: l' => insert_pos before i (stable_sort before l')
  end.

(** Rows [i] and [j] compared on one key column. *)
Definition key_compare (c : column) (i j : nat) : comparison :=
  match c with
  | IntCol xs => Z.compare (nth i xs 0%Z) (nth j xs 0%Z)
  | StrCol xs => String.compare (nth i xs "") (nth j xs "")
  end.

(** Rows compared on a list of keys, the first key the most significant. *)
Fixpoint lex_compare (keys : list column) (i j : nat) : comparison :=
  match keys with
  | [] => Eq
  | c :: keys' =>
      match key_compare c i j with
      | Eq => lex_compare keys' i j
      | r => r
      end
  end.

(** Row [i] may stand in front of row [j] in descending order: its key is
    not the smaller one. *)
Definition descending (keys : list column) (i j : nat) : bool :=
  match lex_compare keys i j with
  | Lt => false
  | _ => true
  end.

(** [lexsort_indexer(keys, orders=False)]: pandas turns every key into
    ordered codes, reverses the codes and calls [np.lexsort], a stable sort.
    The outcome is the stable sort of the row positions by descending key. *)
Definition lexsort_indexer (keys : list column) (n : nat) : list nat :=
  stable_sort (descending keys) (seq 0 n).

(** [get_label_values] for each label of [by], the first failure raised. *)
Fixpoint get_keys (df : DataFrame) (by_ : list string) : result (list column) :=
  match by_ with
  | [] => Return []
  | key :: rest =>
      match get_label_values df key with
      | Raise e => Raise e
      | Return c =>
          match get_keys df rest with
          | Raise e => Raise e
          | Return cs => Return (c :: cs)
          end
      end
  end.

(** ** The store and the monad *)

Definition ref : Type := nat.
Abbreviation store := (list DataFrame).

Definition M (A : Type) : Type := store -> store * result A.

Definition ret {A} (a : A) : M A := fun st => (st, Return a).

Definition bind {A B} (m : M A) (k : A -> M B) : M B :=
  fun st =>
    match m st with
    | (st', Return a) => k a st'
    | (st', Raise e) => (st', Raise e)
    end.

Definition raise {A} (e : exn) : M A := fun st => (st, Raise e).

Definition lift {A} (r : result A) : M A := fun st => (st, r).

Notation "x <- m ;; k" := (bind m (fun x => k))
  (at level 100, m at next level, right associativity).
Notation "m ;;; k" := (bind m (fun _ => k))
  (at level 100, right associativity).

(** The frame a reference denotes.  A Python name always denotes an object;
    on a reference outside the store the lookup yields the empty frame. *)
Definition deref (df : ref) : M DataFrame :=
  fun st => (st, Return (st !!! df)).

(** A new object. *)
Definition alloc (t : DataFrame) : M ref :=
  fun st => (st ++ [t], Return (length st)).

(** [df.columns] *)
Definition get_columns (df : ref) : M (list string) :=
  t <- deref df ;; ret (columns t).

(** [df.columns = labels]: the object itself changes. *)
Definition set_columns (df : ref) (labels : list string) : M unit :=
  fun st => (<[df := with_columns labels (st !!! df)]> st, Return tt).

(** [df.rename({old: new}, axis=1)] *)
Definition rename (df : ref) (old new : string) : M ref :=
  t <- deref df ;; alloc (rename_columns old new t).

(** [df.iloc[i]] on a reference *)
Definition iloc_ref (df : ref) (i : nat) : M Series :=
  t <- deref df ;; lift (iloc t i).

(** What a call computes, and the table behind a returned reference. *)
Definition outcome {A} (m : M A) (st : store) : result A := snd (m st).

Definition returned_frame (m : M ref) (st : store) : result DataFrame :=
  match m st with
  | (st', Return r) => Return (st' !!! r)
  | (_, Raise e) => Raise e
  end.

(** ** [_versions/v3_pipeline.py] *)

Module V3.

(** [df.sort_values(by, ascending=False)] with two or more labels in [by]. *)
Definition sort_values (df : ref) (by_ : list string) : M ref :=
  t <- deref df ;;
  keys <- lift (get_keys t by_) ;;
  alloc (take (lexsort_indexer keys (nrows t)) t).

Definition preprocess_cereals (df : ref) : M ref :=
  cols <- get_columns df ;;
  set_columns df (index_str_lower cols) ;;;
  cols <- get_columns df ;;
  if negb (contains "name" cols) then
    cols <- get_columns df ;;
    if contains "brand" cols then
      rename df "brand" "name"
    else
      raise (ValueError "df does not contain column 'name'")
  else
    ret df.

Definition find_highest_protein_cereal (df : ref) : M pyobj :=
  sorted_df <- sort_values df ["protein"; "calories"] ;;
  row <- iloc_ref sorted_df 0 ;;
  lift (getitem row "name").

(** The job, from the loaded table to the selected name. *)
Definition best_preworkout_cereal_pipeline (df : ref) : M pyobj :=
  df <- preprocess_cereals df ;;
  find_highest_protein_cereal df.

End V3.

(** ** [_versions/v0_pipeline.py] *)

Module V0.

Section Quicksort.

(** [ndarray.argsort(kind="quicksort")]: the positions that sort the array
    in ascending order.  The order it gives to equal elements is not
    specified, so the algorithm is a parameter. *)
Variable argsort : forall A : Type, (A -> A -> bool) -> list A -> list nat.

(** [nargsort(items, kind="quicksort", ascending=False)]: the array and its
    positions are reversed, sorted in ascending order, and the outcome is
    reversed. *)
Definition nargsort (items : column) : list nat :=
  let non_nan_idx := rev (seq 0 (col_length items)) in
  let order :=
    match items with
    | IntCol xs => argsort Z Z.leb (rev xs)
    | StrCol xs => argsort string String.leb (rev xs)
    end in
  rev (map (fun p => nth p non_nan_idx 0%nat) order).

(** [df.sort_values(label, ascending=False)] with a single label. *)
Definition sort_values (df : ref) (by_ : string) : M ref :=
  t <- deref df ;;
  k <- lift (get_label_values t by_) ;;
  alloc (take (nargsort k) t).

Definition find_highest_protein_cereal (df : ref) : M pyobj :=
  sorted_df <- sort_values df "protein" ;;
  row <- iloc_ref sorted_df 0 ;;
  lift (getitem row "name").

End Quicksort.

(** What numpy promises of [argsort] on an integer array: a permutation of
    the positions, along which the values do not decrease. *)
Definition argsort_spec
    (argsort : forall A : Type, (A -> A -> bool) -> list A -> list nat) : Prop :=
  forall l : list Z,
    Permutation (argsort Z Z.leb l) (seq 0 (length l)) /\
    StronglySorted (fun i j => (nth i l 0 <= nth j l 0)%Z) (argsort Z Z.leb l).

(** One such algorithm: the insertion sort of the positions. *)
Definition insertion_argsort (A : Type) (leb : A -> A -> bool) (l : list A)
  : list nat :=
  match l with
  | [] => []
  | d :: _ =>
      stable_sort (fun i j => leb (nth i l d) (nth j l d)) (seq 0 (length l))
  end.

End V0.

(** ** Notions the statements use *)

(** The frame after [df.columns = df.columns.str.lower()]. *)
Definition lowercased (t : DataFrame) : DataFrame :=
  with_columns (index_str_lower (columns t)) t.

(** The frame after [df.columns = df.columns.str.upper()], as the test suite
    builds its upper-case variant. *)
Definition uppercased (t : DataFrame) : DataFrame :=
  with_columns (index_str_upper (columns t)) t.

(** Row [a] stands rightly in front of row [b] in a stable sort: it may
    stand in front of it, and if [b] might as well stand in front of [a]
    then [a] is the earlier row. *)
Definition in_stable_order (before : nat -> nat -> bool) (a b : nat) : Prop :=
  before a b = true /\ (before b a = true -> a < b).

(** ** Tables used in the examples *)

(** The fixture of [test_find_highest_protein_cereal]. *)
Definition test_df : DataFrame :=
  [ ("name", StrCol ["Bran"; "Bran - no added sugars"; "Honey-comb"]);
    ("protein", IntCol [4; 4; 1]%Z);
    ("calories", IntCol [70; 50; 110]%Z) ].


(** The table of a CSV file with the headers [Name], [Protein], [Calories]. *)
Definition capitalised_df : DataFrame :=
  [ ("Name", StrCol ["Bran"; "Honey-comb"]);
    ("Protein", IntCol [4; 1]%Z);
    ("Calories", IntCol [70; 110]%Z) ].

(** The same data under [brand], and under a label that is neither. *)
Definition brand_df : DataFrame :=
  [ ("Brand", StrCol ["Bran"; "Honey-comb"]);
    ("protein", IntCol [4; 1]%Z);
    ("calories", IntCol [70; 110]%Z) ].

Definition anonymous_df : DataFrame :=
  [ ("Cereal", StrCol ["Bran"; "Honey-comb"]);
    ("protein", IntCol [4; 1]%Z);
    ("calories", IntCol [70; 110]%Z) ].

(** A table with a [Name] and a [Brand] column. *)
Definition name_and_brand_df : DataFrame :=
  [ ("Brand", StrCol ["Kellogg"; "Post"]);
    ("Name", StrCol ["Bran"; "Honey-comb"]);
    ("protein", IntCol [4; 1]%Z);
    ("calories", IntCol [70; 110]%Z) ].

(** A table with two columns that both lower-case to [name]. *)
Definition two_names_df : DataFrame :=
  [ ("name", StrCol ["Bran"]);
    ("NAME", StrCol ["BRAN"]);
    ("protein", IntCol [4]%Z);
    ("calories", IntCol [70]%Z) ].

(** A table with a [name] column and a column headed [Brand]. *)
Definition second_brand_df : DataFrame :=
  [ ("name", StrCol ["Bran"]);
    ("Brand", StrCol ["Kellogg"]);
    ("protein", IntCol [4]%Z);
    ("calories", IntCol [70]%Z) ].

(** A table with its protein under two headers that differ in case. *)
Definition two_proteins_df : DataFrame :=
  [ ("name", StrCol ["Bran"]);
    ("Protein", IntCol [4]%Z);
    ("PROTEIN", IntCol [4]%Z);
    ("calories", IntCol [70]%Z) ].

(** A table without a calories column, two rows tied on protein. *)
Definition no_calories_df : DataFrame :=
  [ ("name", StrCol ["Bran"; "Oats"; "Honey-comb"]);
    ("protein", IntCol [4; 4; 1]%Z) ].

(** A table with the three columns and no rows. *)
Definition empty_df : DataFrame :=
  [ ("name", StrCol []); ("protein", IntCol []); ("calories", IntCol []) ].

(** A table whose protein column is headed with a dotless i in place of
    the [i]: [prote], U+0131, [n]. *)
Definition dotless_df : DataFrame :=
  [ ("name", StrCol ["Bran"; "Honey-comb"]);
    (String.append "prote" (String.append dotless_i "n"), IntCol [4; 1]%Z);
    ("calories", IntCol [70; 110]%Z) ].

(** * Properties *)

(** ** Case mapping *)

Lemma ascii_lower_idem (c : ascii) : ascii_lower (ascii_lower c) = ascii_lower c.
Proof. destruct c as [[] [] [] [] [] [] [] []]; reflexivity. Qed.

Lemma str_lower_idem (s : string) : str_lower (str_lower s) = str_lower s.
Proof.
  induction s as [| c r IH]; simpl.
  - reflexivity.
  - now rewrite ascii_lower_idem, IH.
Qed.

Lemma ascii_lower_upper (c : ascii) : ascii_lower (ascii_upper c) = ascii_lower c.
Proof. destruct c as [[] [] [] [] [] [] [] []]; reflexivity. Qed.

Lemma ascii_byte_not_special (c c' : ascii) :
  (nat_of_ascii c <? 128)%nat = true ->
  is_dotless_i c c' = false /\ is_long_s c c' = false.
Proof.
  destruct c as [[] [] [] [] [] [] [] []];
    (split; reflexivity) || (intros H; vm_compute in H; discriminate).
Qed.

(** On ASCII labels, lower-casing undoes upper-casing. *)
Lemma str_lower_upper_ascii (s : string) :
  is_ascii s = true -> str_lower (str_upper s) = str_lower s.
Proof.
  induction s as [| c r IH]; [ reflexivity |].
  cbn [is_ascii]. intros [Hc Hr]%andb_true_iff.
  destruct r as [| c' r'].
  - cbn. now rewrite ascii_lower_upper.
  - destruct (ascii_byte_not_special c c' Hc) as [Hi Hs].
    cbn [str_upper]. rewrite Hi, Hs.
    cbn [str_lower]. rewrite ascii_lower_upper. f_equal. now apply IH.
Qed.

(** ** Labels of a frame *)

Lemma contains_In (key : string) (labels : list string) :
  contains key labels = true <-> In key labels.
Proof.
  unfold contains. rewrite existsb_exists. split.
  - intros (h & Hin & Heq). apply String.eqb_eq in Heq. now subst.
  - intros Hin. exists key. split; [ assumption | apply String.eqb_refl ].
Qed.

Lemma contains_not_In (key : string) (labels : list string) :
  contains key labels = false <-> ~ In key labels.
Proof.
  rewrite <- contains_In. destruct (contains key labels); split; congruence.
Qed.

Lemma lowercased_map (t : DataFrame) :
  lowercased t = map (fun hc => (str_lower (fst hc), snd hc)) t.
Proof.
  unfold lowercased, with_columns, index_str_lower, columns.
  induction t as [| [h c] t IH]; simpl; [ reflexivity | now rewrite IH ].
Qed.

Lemma uppercased_map (t : DataFrame) :
  uppercased t = map (fun hc => (str_upper (fst hc), snd hc)) t.
Proof.
  unfold uppercased, with_columns, index_str_upper, columns.
  induction t as [| [h c] t IH]; simpl; [ reflexivity | now rewrite IH ].
Qed.

Lemma columns_lowercased (t : DataFrame) :
  columns (lowercased t) = index_str_lower (columns t).
Proof.
  rewrite lowercased_map. unfold columns, index_str_lower.
  rewrite !map_map. reflexivity.
Qed.

Lemma data_lowercased (t : DataFrame) : map snd (lowercased t) = map snd t.
Proof. rewrite lowercased_map, map_map. reflexivity. Qed.

Lemma lowercased_idem (t : DataFrame) : lowercased (lowercased t) = lowercased t.
Proof.
  rewrite !lowercased_map, map_map. apply map_ext. intros [h c]; simpl.
  now rewrite str_lower_idem.
Qed.

Lemma lowercased_fixed (t : DataFrame) :
  Forall (fun h => str_lower h = h) (columns t) -> lowercased t = t.
Proof.
  rewrite lowercased_map. unfold columns.
  induction t as [| [h c] t IH]; simpl; intros H; [ reflexivity |].
  inversion H as [| ? ? Hh Ht]; subst. simpl in Hh.
  now rewrite Hh, IH.
Qed.

Lemma columns_lowercased_lower (t : DataFrame) :
  Forall (fun h => str_lower h = h) (columns (lowercased t)).
Proof.
  rewrite columns_lowercased. unfold index_str_lower.
  apply List.Forall_forall. intros h (h0 & <- & _)%in_map_iff.
  apply str_lower_idem.
Qed.

Lemma columns_rename (old new : string) (t : DataFrame) :
  columns (rename_columns old new t) = map (rename_label old new) (columns t).
Proof. unfold columns, rename_columns. rewrite !map_map. reflexivity. Qed.

Lemma rename_brings_new (old new : string) (labels : list string) :
  In old labels -> In new (map (rename_label old new) labels).
Proof.
  intros Hin. apply in_map_iff. exists old. split; [| assumption ].
  unfold rename_label. now rewrite String.eqb_refl.
Qed.

Lemma rename_keeps_lower (t : DataFrame) :
  Forall (fun h => str_lower h = h) (columns t) ->
  Forall (fun h => str_lower h = h) (columns (rename_columns "brand" "name" t)).
Proof.
  rewrite columns_rename. intros H. apply List.Forall_forall.
  intros h (h0 & <- & Hin)%in_map_iff. unfold rename_label.
  destruct (String.eqb h0 "brand"); [ reflexivity |].
  rewrite List.Forall_forall in H. now apply H.
Qed.

(** ** The store *)

Lemma deref_at (st : store) (df : ref) (t : DataFrame) :
  st !! df = Some t -> st !!! df = t.
Proof. apply list_lookup_total_correct. Qed.

Lemma deref_updated (st : store) (df : ref) (t t' : DataFrame) :
  st !! df = Some t -> <[df := t']> st !!! df = t'.
Proof.
  intros H. apply list_lookup_total_correct, list_lookup_insert_eq.
  now apply lookup_lt_Some in H.
Qed.

Lemma deref_fresh (st : store) (t : DataFrame) : (st ++ [t]) !!! length st = t.
Proof. apply list_lookup_total_middle. reflexivity. Qed.

(** ** What [preprocess_cereals] does, case by case *)

Lemma preprocess_cereals_run (st : store) (df : ref) (t : DataFrame) :
  st !! df = Some t ->
  V3.preprocess_cereals df st =
    let st' := <[df := lowercased t]> st in
    if contains "name" (columns (lowercased t)) then (st', Return df)
    else if contains "brand" (columns (lowercased t)) then
      (st' ++ [rename_columns "brand" "name" (lowercased t)],
       Return (length st'))
    else (st', Raise (ValueError "df does not contain column 'name'")).
Proof.
  intros Hdf. cbv zeta.
  unfold V3.preprocess_cereals, bind, get_columns, set_columns, rename,
    deref, alloc, ret, raise, bind.
  rewrite (deref_at _ _ _ Hdf).
  fold (lowercased t).
  pose proof (deref_updated _ _ _ (lowercased t) Hdf) as Hnew.
  cbn beta iota. rewrite !Hnew.
  destruct (contains "name" (columns (lowercased t))); cbn; [ reflexivity |].
  rewrite !Hnew.
  destruct (contains "brand" (columns (lowercased t))); cbn; now rewrite ?Hnew.
Qed.

(** ** The Normalizer *)

(** C3.  On every table, [preprocess_cereals] raises exactly when, the
    headers lower-cased, there is neither a [name] nor a [brand] column; the
    exception is the [ValueError] of the source, which is what the
    specification calls a SchemaError.  In every other case it returns a
    table whose headers are lower case and among which [name] occurs: the
    lower-cased table itself when [name] is there, and the lower-cased table
    with [brand] renamed to [name] when it is not. *)
Theorem preprocess_cereals_raises_iff
    (st : store) (df : ref) (t : DataFrame) :
  st !! df = Some t ->
  let labels := index_str_lower (columns t) in
  ((exists e, outcome (V3.preprocess_cereals df) st = Raise e) <->
   (~ In "name" labels /\ ~ In "brand" labels)) /\
  (~ In "name" labels /\ ~ In "brand" labels ->
   outcome (V3.preprocess_cereals df) st =
     Raise (ValueError "df does not contain column 'name'")) /\
  (~ (~ In "name" labels /\ ~ In "brand" labels) ->
   exists t',
     returned_frame (V3.preprocess_cereals df) st = Return t' /\
     Forall (fun h => str_lower h = h) (columns t') /\
     In "name" (columns t') /\
     t' = if contains "name" labels then lowercased t
          else rename_columns "brand" "name" (lowercased t)).
Proof.
  intros Hdf labels.
  pose proof (preprocess_cereals_run st df t Hdf) as Hrun. cbv zeta in Hrun.
  pose proof (deref_updated st df t (lowercased t) Hdf) as Hnew.
  unfold outcome, returned_frame. rewrite Hrun.
  rewrite columns_lowercased. fold labels.
  destruct (contains "name" labels) eqn:Hname.
  - apply contains_In in Hname. cbn [snd]. rewrite Hnew.
    split; [ split | split ].
    + intros [e He]. discriminate.
    + intros [Hn _]. contradiction.
    + intros [Hn _]. contradiction.
    + intros _. exists (lowercased t). repeat split.
      * apply columns_lowercased_lower.
      * now rewrite columns_lowercased.
  - apply contains_not_In in Hname.
    destruct (contains "brand" labels) eqn:Hbrand.
    + apply contains_In in Hbrand. cbn [snd]. rewrite deref_fresh.
      split; [ split | split ].
      * intros [e He]. discriminate.
      * intros [_ Hb]. contradiction.
      * intros [_ Hb]. contradiction.
      * intros _. exists (rename_columns "brand" "name" (lowercased t)).
        repeat split.
        -- apply rename_keeps_lower, columns_lowercased_lower.
        -- rewrite columns_rename, columns_lowercased.
           now apply rename_brings_new.
    + apply contains_not_In in Hbrand. cbn [snd].
      split; [ split | split ].
      * intros _. now split.
      * intros _. eauto.
      * intros _. reflexivity.
      * intros Hno. exfalso. apply Hno. now split.
Qed.

Lemma preprocess_cereals_raises_iff_witness :
  [anonymous_df] !! 0%nat = Some anonymous_df /\
  outcome (V3.preprocess_cereals 0) [anonymous_df] =
    Raise (ValueError "df does not contain column 'name'").
Proof.
  split; [ reflexivity |].
  apply (preprocess_cereals_raises_iff [anonymous_df] 0 anonymous_df eq_refl).
  split; vm_compute; intuition discriminate.
Defined.

(** C5.  The Normalizer is idempotent.  When [preprocess_cereals] succeeds,
    calling it again on the table it returned changes nothing in the store
    and returns that same table. *)
Theorem preprocess_cereals_idempotent
    (st st' : store) (df df' : ref) (t : DataFrame) :
  st !! df = Some t ->
  V3.preprocess_cereals df st = (st', Return df') ->
  V3.preprocess_cereals df' st' = (st', Return df') /\
  returned_frame (V3.preprocess_cereals df') st' =
    returned_frame (V3.preprocess_cereals df) st.
Proof.
  intros Hdf Hcall.
  pose proof (preprocess_cereals_run st df t Hdf) as Hrun. cbv zeta in Hrun.
  assert (Hlt : df < length st) by now apply lookup_lt_Some in Hdf.
  assert (Hsame : V3.preprocess_cereals df' st' = (st', Return df')).
  { rewrite Hcall in Hrun.
    destruct (contains "name" (columns (lowercased t))) eqn:Hname.
    - injection Hrun as -> ->.
      assert (Hat : <[df := lowercased t]> st !! df = Some (lowercased t))
        by now apply list_lookup_insert_eq.
      rewrite (preprocess_cereals_run _ _ _ Hat). cbv zeta.
      rewrite lowercased_idem, Hname.
      f_equal. exact (list_insert_id _ _ _ Hat).
    - destruct (contains "brand" (columns (lowercased t))) eqn:Hbrand;
        [| discriminate ].
      injection Hrun as -> ->.
      set (st1 := <[df := lowercased t]> st).
      set (t1 := rename_columns "brand" "name" (lowercased t)).
      assert (Hat : (st1 ++ [t1]) !! length st1 = Some t1)
        by now apply list_lookup_middle.
      rewrite (preprocess_cereals_run _ _ _ Hat). cbv zeta.
      assert (Hfix : lowercased t1 = t1).
      { apply lowercased_fixed, rename_keeps_lower, columns_lowercased_lower. }
      assert (Hin : contains "name" (columns t1) = true).
      { apply contains_In. unfold t1. rewrite columns_rename.
        apply rename_brings_new. now apply contains_In. }
      rewrite Hfix, Hin.
      f_equal. exact (list_insert_id _ _ _ Hat). }
  split; [ exact Hsame |].
  unfold returned_frame. now rewrite Hsame, Hcall.
Qed.

Lemma preprocess_cereals_idempotent_witness :
  let st' := [lowercased brand_df;
              rename_columns "brand" "name" (lowercased brand_df)] in
  V3.preprocess_cereals 0 [brand_df] = (st', Return 1%nat) /\
  V3.preprocess_cereals 1 st' = (st', Return 1%nat).
Proof.
  split; [ reflexivity |].
  apply (preprocess_cereals_idempotent [brand_df] _ 0 1 brand_df);
    reflexivity.
Defined.

(** C8.  When the lower-cased headers hold both [name] and [brand], nothing
    is renamed.  The call returns the very table it was given, with the
    headers lower-cased and nothing else changed: the columns stand in the
    same order with the same contents, and a column headed [brand] is still
    headed [brand]. *)
Theorem preprocess_cereals_name_wins
    (st : store) (df : ref) (t : DataFrame) :
  st !! df = Some t ->
  In "name" (index_str_lower (columns t)) ->
  In "brand" (index_str_lower (columns t)) ->
  V3.preprocess_cereals df st = (<[df := lowercased t]> st, Return df) /\
  returned_frame (V3.preprocess_cereals df) st = Return (lowercased t) /\
  columns (lowercased t) = index_str_lower (columns t) /\
  map snd (lowercased t) = map snd t /\
  In "brand" (columns (lowercased t)).
Proof.
  intros Hdf Hname Hbrand.
  pose proof (preprocess_cereals_run st df t Hdf) as Hrun. cbv zeta in Hrun.
  assert (Hc : contains "name" (columns (lowercased t)) = true).
  { apply contains_In. now rewrite columns_lowercased. }
  rewrite Hc in Hrun.
  split; [ exact Hrun |]. split.
  - unfold returned_frame. rewrite Hrun.
    now rewrite (deref_updated st df t (lowercased t) Hdf).
  - split; [ apply columns_lowercased |].
    split; [ apply data_lowercased |].
    now rewrite columns_lowercased.
Qed.

Lemma preprocess_cereals_name_wins_witness :
  returned_frame (V3.preprocess_cereals 0) [name_and_brand_df] =
    Return [ ("brand", StrCol ["Kellogg"; "Post"]);
             ("name", StrCol ["Bran"; "Honey-comb"]);
             ("protein", IntCol [4; 1]%Z);
             ("calories", IntCol [70; 110]%Z) ].
Proof.
  apply (preprocess_cereals_name_wins [name_and_brand_df] 0 name_and_brand_df).
  - reflexivity.
  - vm_compute. tauto.
  - vm_compute. tauto.
Defined.

(** C9.  A failing call is not undone.  On a table with neither [name] nor
    [brand] among its lower-cased headers the call raises, and the store it
    leaves holds, in place of the caller's table, that table with every
    header lower-cased. *)
Theorem preprocess_cereals_failure_not_atomic
    (st : store) (df : ref) (t : DataFrame) :
  st !! df = Some t ->
  ~ In "name" (index_str_lower (columns t)) ->
  ~ In "brand" (index_str_lower (columns t)) ->
  V3.preprocess_cereals df st =
    (<[df := lowercased t]> st,
     Raise (ValueError "df does not contain column 'name'")) /\
  <[df := lowercased t]> st !! df = Some (lowercased t) /\
  columns (lowercased t) = index_str_lower (columns t).
Proof.
  intros Hdf Hname Hbrand.
  pose proof (preprocess_cereals_run st df t Hdf) as Hrun. cbv zeta in Hrun.
  rewrite columns_lowercased in Hrun.
  apply contains_not_In in Hname, Hbrand. rewrite Hname, Hbrand in Hrun.
  split; [ exact Hrun |].
  split; [| apply columns_lowercased ].
  apply list_lookup_insert_eq. now apply lookup_lt_Some in Hdf.
Qed.

Lemma preprocess_cereals_failure_not_atomic_witness :
  V3.preprocess_cereals 0 [anonymous_df] =
    ([ [ ("cereal", StrCol ["Bran"; "Honey-comb"]);
         ("protein", IntCol [4; 1]%Z);
         ("calories", IntCol [70; 110]%Z) ] ],
     Raise (ValueError "df does not contain column 'name'")).
Proof.
  apply (preprocess_cereals_failure_not_atomic [anonymous_df] 0 anonymous_df).
  - reflexivity.
  - vm_compute. intuition discriminate.
  - vm_compute. intuition discriminate.
Defined.

(** C6, amended.  Let [name] be a header of the table, the only header that
    lower-cases to [name], and let no header lower-case to [brand].  Then
    normalising the table with [name] renamed to [brand] returns the same
    table, headers and contents, as normalising the table itself. *)
Theorem preprocess_cereals_renaming
    (st1 st2 : store) (df1 df2 : ref) (t : DataFrame) :
  st1 !! df1 = Some t ->
  st2 !! df2 = Some (rename_columns "name" "brand" t) ->
  In "name" (columns t) ->
  (forall h, In h (columns t) -> str_lower h = "name" -> h = "name") ->
  (forall h, In h (columns t) -> str_lower h <> "brand") ->
  returned_frame (V3.preprocess_cereals df2) st2 = Return (lowercased t) /\
  returned_frame (V3.preprocess_cereals df1) st1 = Return (lowercased t).
Proof.
  intros H1 H2 Hname Honly Hnobrand.
  set (t2 := rename_columns "name" "brand" t) in *.
  assert (Hlab2 : columns (lowercased t2) =
                  map (fun h => if String.eqb h "name" then "brand"
                                else str_lower h) (columns t)).
  { rewrite columns_lowercased. unfold t2. rewrite columns_rename.
    unfold index_str_lower. rewrite map_map. apply map_ext.
    intros h. unfold rename_label. now destruct (String.eqb h "name"). }
  assert (Hn2 : contains "name" (columns (lowercased t2)) = false).
  { apply contains_not_In. rewrite Hlab2.
    intros (h & Hh & Hin)%in_map_iff.
    destruct (String.eqb h "name") eqn:E; [ discriminate |].
    apply String.eqb_neq in E. apply E. now apply Honly. }
  assert (Hb2 : contains "brand" (columns (lowercased t2)) = true).
  { apply contains_In. rewrite Hlab2. apply in_map_iff.
    exists "name". now split. }
  assert (Hback : rename_columns "brand" "name" (lowercased t2) = lowercased t).
  { rewrite !lowercased_map. unfold t2, rename_columns. rewrite !map_map.
    apply map_ext_in. intros [h c] Hin. cbn [fst snd]. f_equal.
    assert (Hh : In h (columns t)).
    { unfold columns. apply in_map_iff. now exists (h, c). }
    unfold rename_label. destruct (String.eqb h "name") eqn:E.
    - apply String.eqb_eq in E. now subst h.
    - destruct (String.eqb (str_lower h) "brand") eqn:E'; [| reflexivity ].
      apply String.eqb_eq in E'. now apply Hnobrand in E'. }
  split.
  - unfold returned_frame.
    rewrite (preprocess_cereals_run st2 df2 t2 H2). cbv zeta.
    rewrite Hn2, Hb2, deref_fresh. now rewrite Hback.
  - unfold returned_frame.
    rewrite (preprocess_cereals_run st1 df1 t H1). cbv zeta.
    assert (Hn1 : contains "name" (columns (lowercased t)) = true).
    { apply contains_In. rewrite columns_lowercased.
      apply in_map_iff. exists "name". now split. }
    rewrite Hn1. now rewrite (deref_updated st1 df1 t (lowercased t) H1).
Qed.

Lemma preprocess_cereals_renaming_witness :
  returned_frame (V3.preprocess_cereals 0)
    [rename_columns "name" "brand" test_df] =
  returned_frame (V3.preprocess_cereals 0) [test_df].
Proof.
  destruct (preprocess_cereals_renaming
              [test_df] [rename_columns "name" "brand" test_df] 0 0 test_df)
    as [Hb Hn].
  - reflexivity.
  - reflexivity.
  - vm_compute. tauto.
  - intros h Hin Hl. vm_compute in Hin.
    destruct Hin as [<- | [<- | [<- | []]]];
      [ reflexivity | discriminate Hl | discriminate Hl ].
  - intros h Hin. vm_compute in Hin.
    destruct Hin as [<- | [<- | [<- | []]]]; discriminate.
  - now rewrite Hb, Hn.
Defined.

(** C6 as stated fails.  The table below has a [name] column and no column
    that is [brand] in any case, yet normalising its renamed copy and
    normalising the table itself return different tables: the second column
    lower-cases to [name] as well, so the renamed copy keeps its [brand],
    and the one column it has under [name] holds other contents than the
    first [name] column of the normalised original. *)
Lemma preprocess_cereals_renaming_counterexample :
  In "name" (columns two_names_df) /\
  ~ In "brand" (columns two_names_df) /\
  ~ In "brand" (index_str_lower (columns two_names_df)) /\
  returned_frame (V3.preprocess_cereals 0)
    [rename_columns "name" "brand" two_names_df] =
    Return [ ("brand", StrCol ["Bran"]); ("name", StrCol ["BRAN"]);
             ("protein", IntCol [4]%Z); ("calories", IntCol [70]%Z) ] /\
  returned_frame (V3.preprocess_cereals 0) [two_names_df] =
    Return [ ("name", StrCol ["Bran"]); ("name", StrCol ["BRAN"]);
             ("protein", IntCol [4]%Z); ("calories", IntCol [70]%Z) ] /\
  returned_frame (V3.preprocess_cereals 0)
    [rename_columns "name" "brand" two_names_df] <>
  returned_frame (V3.preprocess_cereals 0) [two_names_df] /\
  outcome (V3.best_preworkout_cereal_pipeline 0)
    [rename_columns "name" "brand" two_names_df] =
    Return (Scalar (VStr "BRAN")) /\
  outcome (V3.best_preworkout_cereal_pipeline 0) [two_names_df] =
    Return (SubSeries [("name", VStr "Bran"); ("name", VStr "BRAN")]).
Proof.
  repeat split; try reflexivity.
  - vm_compute. tauto.
  - vm_compute. intuition discriminate.
  - vm_compute. intuition discriminate.
  - vm_compute. discriminate.
Qed.

(** A column headed [Brand] breaks the renaming property as well: in the
    renamed copy it is renamed to [name] along with the first column. *)
Lemma preprocess_cereals_renaming_second_brand :
  ~ In "brand" (columns second_brand_df) /\
  returned_frame (V3.preprocess_cereals 0)
    [rename_columns "name" "brand" second_brand_df] =
    Return [ ("name", StrCol ["Bran"]); ("name", StrCol ["Kellogg"]);
             ("protein", IntCol [4]%Z); ("calories", IntCol [70]%Z) ] /\
  returned_frame (V3.preprocess_cereals 0) [second_brand_df] =
    Return [ ("name", StrCol ["Bran"]); ("brand", StrCol ["Kellogg"]);
             ("protein", IntCol [4]%Z); ("calories", IntCol [70]%Z) ].
Proof.
  repeat split; try reflexivity.
  vm_compute. intuition discriminate.
Qed.

(** ** Sorting *)

Section StableSort.

Variable before : nat -> nat -> bool.

Lemma insert_pos_length (i : nat) (l : list nat) :
  length (insert_pos before i l) = S (length l).
Proof.
  induction l as [| j l IH]; simpl; [ reflexivity |].
  destruct (before i j); simpl; [ reflexivity | now rewrite IH ].
Qed.

Lemma stable_sort_length (l : list nat) :
  length (stable_sort before l) = length l.
Proof.
  induction l as [| i l IH]; simpl; [ reflexivity |].
  now rewrite insert_pos_length, IH.
Qed.

Lemma insert_pos_perm (i : nat) (l : list nat) :
  Permutation (insert_pos before i l) (i :: l).
Proof.
  induction l as [| j l IH]; simpl; [ reflexivity |].
  destruct (before i j); [ reflexivity |].
  rewrite IH. apply perm_swap.
Qed.

Lemma stable_sort_perm (l : list nat) : Permutation (stable_sort before l) l.
Proof.
  induction l as [| i l IH]; simpl; [ reflexivity |].
  rewrite insert_pos_perm. now constructor.
Qed.

Hypothesis before_total : forall i j, before i j = false -> before j i = true.
Hypothesis before_trans :
  forall i j k, before i j = true -> before j k = true -> before i k = true.

Lemma before_refl (i : nat) : before i i = true.
Proof.
  destruct (before i i) eqn:E; [ reflexivity |].
  pose proof (before_total _ _ E). congruence.
Qed.

(** The head of the sorted positions, when the positions come in increasing
    order: it may stand in front of every position, and no smaller position
    may stand in front of it. *)
Lemma stable_sort_head (l : list nat) :
  StronglySorted lt l -> l <> [] ->
  exists h rest,
    stable_sort before l = h :: rest /\
    In h l /\
    (forall y, In y l -> before h y = true) /\
    (forall y, In y l -> y < h -> before y h = false).
Proof.
  induction l as [| x l IH]; [ congruence |].
  intros Hs _. inversion Hs as [| ? ? Hs' Hx]; subst.
  rewrite List.Forall_forall in Hx.
  destruct l as [| x' l'].
  - exists x, []. simpl. repeat split.
    + now left.
    + intros y [<- | []]. apply before_refl.
    + intros y [<- | []] Hlt. lia.
  - destruct (IH Hs' ltac:(congruence)) as (h & rest & Heq & Hin & Hall & Hlt).
    cbn [stable_sort] in *. rewrite Heq. cbn [insert_pos].
    destruct (before x h) eqn:E.
    + exists x, (h :: rest). repeat split.
      * now left.
      * intros y [<- | Hy]; [ apply before_refl |].
        apply before_trans with h; [ assumption | now apply Hall ].
      * intros y [<- | Hy] Hyx; [ lia |]. apply Hx in Hy. lia.
    + exists h, (insert_pos before x rest). repeat split.
      * now right.
      * intros y [<- | Hy]; [ now apply before_total | now apply Hall ].
      * intros y [<- | Hy] Hyh; [ assumption | now apply Hlt ].
Qed.

(** The sorted positions are in order. *)
Lemma insert_pos_sorted (i : nat) (l : list nat) :
  StronglySorted (fun a b => before a b = true) l ->
  StronglySorted (fun a b => before a b = true) (insert_pos before i l).
Proof.
  induction l as [| j l IH]; intros Hs; simpl.
  - repeat constructor.
  - inversion Hs as [| ? ? Hs' Hj]; subst.
    destruct (before i j) eqn:E.
    + constructor; [ assumption |].
      constructor; [ assumption |].
      rewrite List.Forall_forall in *. intros y Hy.
      apply before_trans with j; auto.
    + constructor; [ now apply IH |].
      rewrite List.Forall_forall in *. intros y Hy.
      apply (Permutation_in _ (insert_pos_perm i l)) in Hy.
      destruct Hy as [<- | Hy]; [ now apply before_total | now apply Hj ].
Qed.

Lemma stable_sort_sorted (l : list nat) :
  StronglySorted (fun a b => before a b = true) (stable_sort before l).
Proof.
  induction l as [| i l IH]; simpl; [ constructor |].
  now apply insert_pos_sorted.
Qed.

End StableSort.

Lemma seq_increasing (start n : nat) : StronglySorted lt (seq start n).
Proof.
  revert start. induction n as [| n IH]; intros start; simpl; constructor.
  - apply IH.
  - apply List.Forall_forall. intros y Hy%in_seq. lia.
Qed.

(** The descending test on two integer keys. *)
Lemma descending_int (ps cs : list Z) (i j : nat) :
  descending [IntCol ps; IntCol cs] i j = true <->
  (nth j ps 0 < nth i ps 0 \/
   (nth j ps 0 = nth i ps 0 /\ nth j cs 0 <= nth i cs 0))%Z.
Proof.
  unfold descending. cbn [lex_compare key_compare].
  destruct (Z.compare_spec (nth i ps 0%Z) (nth j ps 0%Z)) as [Hp | Hp | Hp].
  - destruct (Z.compare_spec (nth i cs 0%Z) (nth j cs 0%Z));
      split; intros; try discriminate; try reflexivity; lia.
  - split; intros; try discriminate; lia.
  - split; intros; try reflexivity; lia.
Qed.

Lemma descending_int_false (ps cs : list Z) (i j : nat) :
  descending [IntCol ps; IntCol cs] i j = false <->
  (nth i ps 0 < nth j ps 0 \/
   (nth j ps 0 = nth i ps 0 /\ nth i cs 0 < nth j cs 0))%Z.
Proof.
  pose proof (descending_int ps cs i j) as H.
  destruct (descending [IntCol ps; IntCol cs] i j).
  - split; [ discriminate |]. intros Hlt.
    assert (true = true) as Ht by reflexivity. apply H in Ht. lia.
  - split; [| reflexivity ]. intros _.
    destruct (Z.lt_ge_cases (nth i ps 0%Z) (nth j ps 0%Z)) as [| Hge];
      [ lia |].
    right.
    destruct (Z.eq_dec (nth j ps 0%Z) (nth i ps 0%Z)) as [He | Hne].
    + split; [ assumption |].
      destruct (Z.lt_ge_cases (nth i cs 0%Z) (nth j cs 0%Z)) as [| Hge'];
        [ lia |].
      assert (false = true) as Hf by (apply H; lia). discriminate.
    + assert (false = true) as Hf by (apply H; lia). discriminate.
Qed.

Lemma descending_int_total (ps cs : list Z) (i j : nat) :
  descending [IntCol ps; IntCol cs] i j = false ->
  descending [IntCol ps; IntCol cs] j i = true.
Proof. rewrite descending_int_false, descending_int. lia. Qed.

Lemma descending_int_trans (ps cs : list Z) (i j k : nat) :
  descending [IntCol ps; IntCol cs] i j = true ->
  descending [IntCol ps; IntCol cs] j k = true ->
  descending [IntCol ps; IntCol cs] i k = true.
Proof. rewrite !descending_int. lia. Qed.

(** ** Rows and label lookup *)

Lemma get_label_values_unique (t : DataFrame) (key : string) (c : column) :
  get_label_values t key = Return c ->
  exists h, List.filter (fun hc => String.eqb (fst hc) key) t = [(h, c)].
Proof.
  unfold get_label_values.
  destruct (List.filter (fun hc => String.eqb (fst hc) key) t)
    as [| [h c0] [| hc' l]]; intros H; try discriminate.
  injection H as ->. now exists h.
Qed.

Lemma get_label_values_In (t : DataFrame) (key : string) (c : column) :
  get_label_values t key = Return c -> In c (map snd t).
Proof.
  intros (h & Hf)%get_label_values_unique.
  assert (Hin : In (h, c) (List.filter (fun hc => String.eqb (fst hc) key) t))
    by (rewrite Hf; now left).
  apply filter_In in Hin as [Hin _].
  apply in_map_iff. now exists (h, c).
Qed.

Lemma filter_row (t : DataFrame) (key : string) (f : column -> value) :
  List.filter (fun hv => String.eqb (fst hv) key)
         (map (fun hc => (fst hc, f (snd hc))) t) =
  map (fun hc => (fst hc, f (snd hc)))
      (List.filter (fun hc => String.eqb (fst hc) key) t).
Proof.
  induction t as [| [h c] t IH]; simpl; [ reflexivity |].
  destruct (String.eqb h key); simpl; now rewrite IH.
Qed.

(** The row at position [i], and what [row["name"]] is when one column is
    labelled [name]. *)
Lemma getitem_row (t : DataFrame) (key : string) (c : column) (i : nat) :
  get_label_values t key = Return c ->
  getitem (map (fun hc => (fst hc, cell (snd hc) i)) t) key =
    Return (Scalar (cell c i)).
Proof.
  intros (h & Hf)%get_label_values_unique.
  unfold getitem. rewrite (filter_row t key (fun c => cell c i)), Hf.
  reflexivity.
Qed.

Lemma nrows_uniform (t : DataFrame) (n : nat) :
  Forall (fun hc => col_length (snd hc) = n) t -> t <> [] -> nrows t = n.
Proof.
  destruct t as [| [h c] t]; [ congruence |].
  intros H _. now inversion H.
Qed.

Lemma nrows_take (indexer : list nat) (t : DataFrame) :
  t <> [] -> nrows (take indexer t) = length indexer.
Proof.
  destruct t as [| [h c] t]; [ congruence |]. intros _.
  destruct c; simpl; apply length_map.
Qed.

Lemma cell_take_col (m : nat) (rest : list nat) (c : column) :
  cell (take_col (m :: rest) c) 0 = cell c m.
Proof. destruct c; reflexivity. Qed.

(** [take(indexer).iloc[0]] is the row the indexer puts first. *)
Lemma iloc_take (m : nat) (rest : list nat) (t : DataFrame) :
  t <> [] ->
  iloc (take (m :: rest) t) 0 =
    Return (map (fun hc => (fst hc, cell (snd hc) m)) t).
Proof.
  intros Ht. unfold iloc. rewrite (nrows_take _ _ Ht). cbn [length Nat.ltb Nat.leb].
  f_equal. unfold take. rewrite map_map. apply map_ext.
  intros [h c]. cbn [fst snd]. now rewrite cell_take_col.
Qed.

Lemma iloc_take_nil (t : DataFrame) :
  iloc (take [] t) 0 =
    Raise (IndexError "single positional indexer is out-of-bounds").
Proof.
  unfold iloc. destruct t as [| [h c] t]; [ reflexivity |].
  destruct c; reflexivity.
Qed.

(** ** The Selector *)

Lemma v3_find_run (st : store) (df : ref) :
  outcome (V3.find_highest_protein_cereal df) st =
    match get_keys (st !!! df) ["protein"; "calories"] with
    | Raise e => Raise e
    | Return keys =>
        match iloc (take (lexsort_indexer keys (nrows (st !!! df)))
                         (st !!! df)) 0 with
        | Raise e => Raise e
        | Return row => getitem row "name"
        end
    end.
Proof.
  unfold outcome, V3.find_highest_protein_cereal, V3.sort_values, iloc_ref,
    bind, deref, lift, alloc.
  destruct (get_keys (st !!! df) ["protein"; "calories"]) as [keys | e];
    [| reflexivity ].
  rewrite deref_fresh.
  destruct (iloc _ 0); reflexivity.
Qed.

Lemma get_keys_two (t : DataFrame) (k1 k2 : string) (c1 c2 : column) :
  get_label_values t k1 = Return c1 ->
  get_label_values t k2 = Return c2 ->
  get_keys t [k1; k2] = Return [c1; c2].
Proof. intros H1 H2. cbn [get_keys]. now rewrite H1, H2. Qed.

(** The row the v3 Selector picks on a table of [n > 0] rows with integer
    [protein] and [calories]. *)
Lemma v3_selects
    (st : store) (df : ref) (t : DataFrame) (n : nat)
    (ps cs : list Z) (names : column) :
  st !! df = Some t ->
  Forall (fun hc => col_length (snd hc) = n) t ->
  0 < n ->
  get_label_values t "protein" = Return (IntCol ps) ->
  get_label_values t "calories" = Return (IntCol cs) ->
  get_label_values t "name" = Return names ->
  exists m,
    m < n /\
    outcome (V3.find_highest_protein_cereal df) st =
      Return (Scalar (cell names m)) /\
    (forall j, j < n ->
       (nth j ps 0 < nth m ps 0 \/
        (nth j ps 0 = nth m ps 0 /\ nth j cs 0 <= nth m cs 0))%Z) /\
    (forall j, j < m ->
       (nth j ps 0 < nth m ps 0 \/
        (nth j ps 0 = nth m ps 0 /\ nth j cs 0 < nth m cs 0))%Z).
Proof.
  intros Hdf Hlen Hn Hp Hc Hname.
  assert (Ht : t <> []).
  { apply get_label_values_In in Hname. now destruct t. }
  destruct (stable_sort_head (descending [IntCol ps; IntCol cs])
              (descending_int_total ps cs) (descending_int_trans ps cs)
              (seq 0 n) (seq_increasing 0 n))
    as (m & rest & Hsort & Hin & Hfront & Hfirst).
  { destruct n; [ lia | discriminate ]. }
  exists m. apply in_seq in Hin. split; [ lia |]. split.
  - rewrite v3_find_run, (deref_at _ _ _ Hdf).
    rewrite (get_keys_two _ _ _ _ _ Hp Hc).
    rewrite (nrows_uniform t n Hlen Ht).
    unfold lexsort_indexer. rewrite Hsort, (iloc_take _ _ _ Ht).
    now apply getitem_row.
  - split.
    + intros j Hj. apply descending_int, Hfront, in_seq. lia.
    + intros j Hj.
      assert (Hf : descending [IntCol ps; IntCol cs] j m = false).
      { apply Hfirst; [ apply in_seq; lia | assumption ]. }
      apply descending_int_false in Hf. lia.
Qed.

(** C1.  On a table of [n > 0] rows in which one column each is labelled
    [name], [protein] and [calories], the last two holding integers, the
    Selector returns the [name] cell of a row [m] such that no row has more
    protein, no row with as much protein has more calories, and no earlier
    row has as much of both. *)
Theorem find_highest_protein_cereal_spec
    (st : store) (df : ref) (t : DataFrame) (n : nat)
    (ps cs : list Z) (names : column) :
  st !! df = Some t ->
  Forall (fun hc => col_length (snd hc) = n) t ->
  0 < n ->
  get_label_values t "protein" = Return (IntCol ps) ->
  get_label_values t "calories" = Return (IntCol cs) ->
  get_label_values t "name" = Return names ->
  exists m,
    m < n /\
    outcome (V3.find_highest_protein_cereal df) st =
      Return (Scalar (cell names m)) /\
    (forall j, j < n -> (nth j ps 0 <= nth m ps 0)%Z) /\
    (forall j, j < n ->
       nth j ps 0%Z = nth m ps 0%Z -> (nth j cs 0 <= nth m cs 0)%Z) /\
    (forall j, j < m ->
       ~ (nth j ps 0%Z = nth m ps 0%Z /\ nth j cs 0%Z = nth m cs 0%Z)).
Proof.
  intros Hdf Hlen Hn Hp Hc Hname.
  destruct (v3_selects st df t n ps cs names Hdf Hlen Hn Hp Hc Hname)
    as (m & Hm & Hout & Hmax & Hfirst).
  exists m. split; [ assumption |]. split; [ assumption |].
  split; [| split ].
  - intros j Hj. specialize (Hmax j Hj). lia.
  - intros j Hj Heq. specialize (Hmax j Hj). lia.
  - intros j Hj [Hpj Hcj]. specialize (Hfirst j Hj). lia.
Qed.

Lemma find_highest_protein_cereal_spec_witness :
  exists m,
    m < 2 /\
    outcome (V3.find_highest_protein_cereal 0)
      [lowercased capitalised_df] =
      Return (Scalar (cell (StrCol ["Bran"; "Honey-comb"]) m)) /\
    (forall j, j < 2 -> (nth j [4; 1] 0 <= nth m [4; 1] 0)%Z) /\
    (forall j, j < 2 ->
       nth j [4; 1]%Z 0%Z = nth m [4; 1]%Z 0%Z ->
       (nth j [70; 110] 0 <= nth m [70; 110] 0)%Z) /\
    (forall j, j < m ->
       ~ (nth j [4; 1]%Z 0%Z = nth m [4; 1]%Z 0%Z /\
          nth j [70; 110]%Z 0%Z = nth m [70; 110]%Z 0%Z)).
Proof.
  apply (find_highest_protein_cereal_spec
           [lowercased capitalised_df] 0 (lowercased capitalised_df) 2
           [4; 1]%Z [70; 110]%Z (StrCol ["Bran"; "Honey-comb"])).
  - reflexivity.
  - vm_compute. repeat constructor.
  - lia.
  - reflexivity.
  - reflexivity.
  - reflexivity.
Defined.

(** C2.  On the table of [test_find_highest_protein_cereal] the v3 Selector
    returns [Bran], the row with 70 calories, and not the
    [Bran - no added sugars] that the test asserts. *)
Theorem find_highest_protein_cereal_on_test_df :
  outcome (V3.find_highest_protein_cereal 0) [test_df] =
    Return (Scalar (VStr "Bran")) /\
  outcome (V3.find_highest_protein_cereal 0) [test_df] <>
    Return (Scalar (VStr "Bran - no added sugars")).
Proof. split; [ reflexivity | vm_compute; discriminate ]. Qed.

(** C4.  On a table without rows the Selector raises: the [IndexError] of
    [iloc[0]] when the two sort columns are there, and otherwise the error
    of the failed column lookup.  The specification calls this failure a
    SchemaError; the source has no exception class of its own. *)
Theorem find_highest_protein_cereal_empty
    (st : store) (df : ref) (t : DataFrame) :
  st !! df = Some t ->
  Forall (fun hc => col_length (snd hc) = 0) t ->
  (exists e, outcome (V3.find_highest_protein_cereal df) st = Raise e) /\
  (forall ps cs,
     get_label_values t "protein" = Return ps ->
     get_label_values t "calories" = Return cs ->
     outcome (V3.find_highest_protein_cereal df) st =
       Raise (IndexError "single positional indexer is out-of-bounds")).
Proof.
  intros Hdf Hlen.
  assert (Hrows : nrows t = 0).
  { destruct t as [| [h c] t]; [ reflexivity | now inversion Hlen ]. }
  rewrite v3_find_run, (deref_at _ _ _ Hdf), Hrows.
  unfold lexsort_indexer. cbn [seq stable_sort]. rewrite iloc_take_nil.
  split.
  - destruct (get_keys t ["protein"; "calories"]); eauto.
  - intros ps cs Hp Hc. now rewrite (get_keys_two _ _ _ _ _ Hp Hc).
Qed.

Lemma find_highest_protein_cereal_empty_witness :
  outcome (V3.find_highest_protein_cereal 0) [empty_df] =
    Raise (IndexError "single positional indexer is out-of-bounds").
Proof.
  apply (find_highest_protein_cereal_empty [empty_df] 0 empty_df eq_refl)
    with (ps := IntCol []) (cs := IntCol []).
  - repeat constructor.
  - reflexivity.
  - reflexivity.
Defined.

(** ** v0 against v3 *)

Lemma v0_find_run
    (argsort : forall A : Type, (A -> A -> bool) -> list A -> list nat)
    (st : store) (df : ref) :
  outcome (V0.find_highest_protein_cereal argsort df) st =
    match get_label_values (st !!! df) "protein" with
    | Raise e => Raise e
    | Return k =>
        match iloc (take (V0.nargsort argsort k) (st !!! df)) 0 with
        | Raise e => Raise e
        | Return row => getitem row "name"
        end
    end.
Proof.
  unfold outcome, V0.find_highest_protein_cereal, V0.sort_values, iloc_ref,
    bind, deref, lift, alloc.
  destruct (get_label_values (st !!! df) "protein") as [k | e];
    [| reflexivity ].
  rewrite deref_fresh.
  destruct (iloc _ 0); reflexivity.
Qed.

Lemma sorted_below_last (R : nat -> nat -> Prop) (l : list nat) (p : nat) :
  StronglySorted R (l ++ [p]) -> forall q, In q l -> R q p.
Proof.
  induction l as [| a l IH]; intros Hs q Hq; [ destruct Hq |].
  inversion Hs as [| ? ? Hs' Ha]; subst.
  destruct Hq as [<- | Hq].
  - rewrite List.Forall_forall in Ha. apply Ha, in_or_app. right. now left.
  - now apply IH.
Qed.

(** With one row of strictly highest value, [nargsort] puts that row first,
    whatever order [argsort] gives to equal values. *)
Lemma nargsort_head
    (argsort : forall A : Type, (A -> A -> bool) -> list A -> list nat)
    (ps : list Z) (m : nat) :
  V0.argsort_spec argsort ->
  m < length ps ->
  (forall j, j < length ps -> j <> m -> (nth j ps 0 < nth m ps 0)%Z) ->
  exists rest, V0.nargsort argsort (IntCol ps) = m :: rest.
Proof.
  intros Hspec Hm Hmax.
  destruct (Hspec (rev ps)) as [Hperm Hsorted].
  rewrite length_rev in Hperm.
  unfold V0.nargsort. cbn [col_length].
  set (n := length ps) in *.
  set (order := argsort Z Z.leb (rev ps)) in *.
  assert (Hne : order <> []).
  { intros E. rewrite E in Hperm. apply Permutation_length in Hperm.
    rewrite length_seq in Hperm. simpl in Hperm. lia. }
  destruct (exists_last Hne) as (order' & p & Hlast).
  rewrite Hlast in *.
  rewrite map_app, rev_app_distr. cbn [map rev app].
  assert (Hp : p < n).
  { assert (Hin : In p (seq 0 n)).
    { apply (Permutation_in _ Hperm), in_or_app. right. now left. }
    apply in_seq in Hin. lia. }
  assert (Hval : forall q, q < n -> nth q (rev ps) 0%Z = nth (n - S q) ps 0%Z).
  { intros q Hq. now apply rev_nth. }
  assert (Hpm : n - S p = m).
  { destruct (Nat.eq_dec (n - S p) m) as [| Hneq]; [ assumption | exfalso ].
    assert (Hq : In (n - S m) (order' ++ [p])).
    { apply (Permutation_in _ (Permutation_sym Hperm)), in_seq. lia. }
    apply in_app_or in Hq as [Hq | [Hq | []]]; [| lia ].
    pose proof (sorted_below_last _ _ _ Hsorted _ Hq) as Hle.
    cbv beta in Hle.
    rewrite (Hval (n - S m)), (Hval p) in Hle by lia.
    replace (n - S (n - S m)) with m in Hle by lia.
    assert (Hlt : (nth (n - S p) ps 0 < nth m ps 0)%Z)
      by (apply Hmax; [ lia | assumption ]).
    lia. }
  exists (rev (map (fun q => nth q (rev (seq 0 n)) 0) order')).
  f_equal.
  rewrite rev_nth by (rewrite length_seq; assumption).
  rewrite length_seq, seq_nth by lia. lia.
Qed.

Lemma col_length_uniform (t : DataFrame) (n : nat) (key : string) (c : column) :
  Forall (fun hc => col_length (snd hc) = n) t ->
  get_label_values t key = Return c ->
  col_length c = n.
Proof.
  intros Hlen (hc & Hc & Hin)%get_label_values_In%in_map_iff.
  rewrite List.Forall_forall in Hlen. rewrite <- Hc. now apply Hlen.
Qed.

(** C10.  On a table of [n > 0] rows with integer [protein] and [calories]
    in which row [m] has strictly more protein than every other row, the v0
    Selector and the v3 Selector return the same name, that of row [m].
    This holds for every sorting algorithm v0's [sort_values] may use. *)
Theorem selectors_agree_without_tie
    (argsort : forall A : Type, (A -> A -> bool) -> list A -> list nat)
    (st : store) (df : ref) (t : DataFrame) (n m : nat)
    (ps cs : list Z) (names : column) :
  V0.argsort_spec argsort ->
  st !! df = Some t ->
  Forall (fun hc => col_length (snd hc) = n) t ->
  get_label_values t "protein" = Return (IntCol ps) ->
  get_label_values t "calories" = Return (IntCol cs) ->
  get_label_values t "name" = Return names ->
  m < n ->
  (forall j, j < n -> j <> m -> (nth j ps 0 < nth m ps 0)%Z) ->
  outcome (V0.find_highest_protein_cereal argsort df) st =
    outcome (V3.find_highest_protein_cereal df) st /\
  outcome (V3.find_highest_protein_cereal df) st =
    Return (Scalar (cell names m)).
Proof.
  intros Hspec Hdf Hlen Hp Hc Hname Hm Hmax.
  assert (Ht : t <> []).
  { apply get_label_values_In in Hname. now destruct t. }
  assert (Hps : length ps = n)
    by exact (col_length_uniform t n _ _ Hlen Hp).
  assert (H3 : outcome (V3.find_highest_protein_cereal df) st =
               Return (Scalar (cell names m))).
  { destruct (v3_selects st df t n ps cs names Hdf Hlen ltac:(lia) Hp Hc Hname)
      as (m' & Hm' & Hout & Hbest & _).
    destruct (Nat.eq_dec m' m) as [-> | Hneq]; [ assumption | exfalso ].
    specialize (Hbest m Hm). specialize (Hmax m' Hm' Hneq). lia. }
  split; [| exact H3 ].
  rewrite H3, v0_find_run, (deref_at _ _ _ Hdf), Hp.
  destruct (nargsort_head argsort ps m Hspec) as [rest Hhead].
  - lia.
  - intros j Hj. apply Hmax. lia.
  - rewrite Hhead, (iloc_take _ _ _ Ht). now apply getitem_row.
Qed.

(** The insertion sort of the positions meets the contract of [argsort]. *)
Lemma insertion_argsort_spec : V0.argsort_spec V0.insertion_argsort.
Proof.
  intros l. unfold V0.insertion_argsort.
  destruct l as [| d l']; [ split; constructor |].
  set (l := d :: l').
  set (before := fun i j => Z.leb (nth i l d) (nth j l d)).
  split; [ apply stable_sort_perm |].
  assert (Hin : forall i, In i (stable_sort before (seq 0 (length l))) ->
                          i < length l).
  { intros i Hi. apply (Permutation_in _ (stable_sort_perm before _)) in Hi.
    apply in_seq in Hi. lia. }
  assert (Hs : StronglySorted (fun a b => before a b = true)
                 (stable_sort before (seq 0 (length l)))).
  { apply stable_sort_sorted; unfold before.
    - intros i j H. apply Z.leb_gt in H. apply Z.leb_le. lia.
    - intros i j k H1 H2. apply Z.leb_le in H1, H2. apply Z.leb_le. lia. }
  revert Hin Hs. generalize (stable_sort before (seq 0 (length l))).
  induction l0 as [| a l0 IH]; intros Hin Hs; constructor.
  - apply IH; [ intros i Hi; apply Hin; now right | now inversion Hs ].
  - inversion Hs as [| ? ? _ Ha]; subst.
    rewrite List.Forall_forall in *. intros b Hb.
    specialize (Ha b Hb). unfold before in Ha. apply Z.leb_le in Ha.
    rewrite (nth_indep l 0%Z d) by (apply Hin; now left).
    rewrite (nth_indep l 0%Z d) by (apply Hin; now right).
    assumption.
Qed.

Lemma selectors_agree_without_tie_witness :
  outcome (V0.find_highest_protein_cereal V0.insertion_argsort 0)
    [lowercased capitalised_df] =
  outcome (V3.find_highest_protein_cereal 0) [lowercased capitalised_df].
Proof.
  apply (selectors_agree_without_tie V0.insertion_argsort
           [lowercased capitalised_df] 0 (lowercased capitalised_df) 2 0
           [4; 1]%Z [70; 110]%Z (StrCol ["Bran"; "Honey-comb"])).
  - exact insertion_argsort_spec.
  - reflexivity.
  - vm_compute. repeat constructor.
  - reflexivity.
  - reflexivity.
  - reflexivity.
  - lia.
  - intros j Hj Hne.
    destruct j as [| [| j]]; [ congruence | vm_compute; reflexivity | lia ].
Defined.

(** ** The pipeline *)

Lemma v3_find_frame (st1 st2 : store) (df1 df2 : ref) :
  st1 !!! df1 = st2 !!! df2 ->
  outcome (V3.find_highest_protein_cereal df1) st1 =
  outcome (V3.find_highest_protein_cereal df2) st2.
Proof. intros H. now rewrite !v3_find_run, H. Qed.

(** The pipeline selects from the table the Normalizer returns. *)
Lemma pipeline_run (st : store) (df : ref) :
  outcome (V3.best_preworkout_cereal_pipeline df) st =
    match returned_frame (V3.preprocess_cereals df) st with
    | Raise e => Raise e
    | Return t' => outcome (V3.find_highest_protein_cereal 0) [t']
    end.
Proof.
  unfold outcome at 1, V3.best_preworkout_cereal_pipeline, bind, returned_frame.
  destruct (V3.preprocess_cereals df st) as [st' [r | e]]; [| reflexivity ].
  apply v3_find_frame. reflexivity.
Qed.

Lemma lowercased_uppercased (t : DataFrame) :
  (forall h, In h (columns t) -> str_lower (str_upper h) = str_lower h) ->
  lowercased (uppercased t) = lowercased t.
Proof.
  intros Hcase. rewrite uppercased_map, !lowercased_map, map_map.
  apply map_ext_in. intros [h c] Hin. cbn [fst snd]. f_equal.
  apply Hcase. unfold columns. apply in_map_iff. now exists (h, c).
Qed.

Lemma returned_frame_lowercased (st1 st2 : store) (df1 df2 : ref)
    (t1 t2 : DataFrame) :
  st1 !! df1 = Some t1 ->
  st2 !! df2 = Some t2 ->
  lowercased t1 = lowercased t2 ->
  returned_frame (V3.preprocess_cereals df1) st1 =
  returned_frame (V3.preprocess_cereals df2) st2.
Proof.
  intros H1 H2 Heq. unfold returned_frame.
  rewrite (preprocess_cereals_run _ _ _ H1), (preprocess_cereals_run _ _ _ H2).
  cbv zeta. rewrite <- Heq.
  destruct (contains "name" (columns (lowercased t1))).
  - now rewrite (deref_updated _ _ _ _ H1), (deref_updated _ _ _ _ H2).
  - destruct (contains "brand" (columns (lowercased t1))); [| reflexivity ].
    now rewrite !deref_fresh.
Qed.

(** C7, amended.  Let every header of the table lower-case to the same
    label before and after it is upper-cased, as every ASCII header does.
    Then the pipeline, Normalizer followed by Selector, has the same outcome
    on the table with all its headers upper-cased as on the table itself. *)
Theorem pipeline_case_insensitive
    (st1 st2 : store) (df1 df2 : ref) (t : DataFrame) :
  st1 !! df1 = Some t ->
  st2 !! df2 = Some (uppercased t) ->
  (forall h, In h (columns t) -> str_lower (str_upper h) = str_lower h) ->
  outcome (V3.best_preworkout_cereal_pipeline df2) st2 =
  outcome (V3.best_preworkout_cereal_pipeline df1) st1.
Proof.
  intros H1 H2 Hcase. rewrite !pipeline_run.
  rewrite (returned_frame_lowercased st2 st1 df2 df1 (uppercased t) t H2 H1
             (lowercased_uppercased t Hcase)).
  reflexivity.
Qed.

Lemma pipeline_case_insensitive_witness :
  outcome (V3.best_preworkout_cereal_pipeline 0) [uppercased brand_df] =
  outcome (V3.best_preworkout_cereal_pipeline 0) [brand_df].
Proof.
  apply (pipeline_case_insensitive [brand_df] [uppercased brand_df] 0 0
           brand_df).
  - reflexivity.
  - reflexivity.
  - intros h Hin. apply str_lower_upper_ascii.
    vm_compute in Hin. destruct Hin as [<- | [<- | [<- | []]]]; reflexivity.
Defined.

(** C7 as stated fails.  With a header that is [protein] but for a dotless
    i, the pipeline raises [KeyError] on the table itself, for want of a
    [protein] column, while on the upper-cased table, where that header has
    become [PROTEIN], it returns a name. *)
Lemma pipeline_case_insensitive_counterexample :
  columns (uppercased dotless_df) = ["NAME"; "PROTEIN"; "CALORIES"] /\
  outcome (V3.best_preworkout_cereal_pipeline 0) [dotless_df] =
    Raise (KeyError "protein") /\
  outcome (V3.best_preworkout_cereal_pipeline 0) [uppercased dotless_df] =
    Return (Scalar (VStr "Bran")) /\
  outcome (V3.best_preworkout_cereal_pipeline 0) [uppercased dotless_df] <>
  outcome (V3.best_preworkout_cereal_pipeline 0) [dotless_df].
Proof.
  repeat split; try reflexivity.
  vm_compute. discriminate.
Qed.

(** * Further properties of the two pipelines *)

(** ** What [preprocess_cereals] touches *)

(** The Normalizer never changes the data.  Whatever table it returns has
    the columns of its argument, in the same order and with the same
    contents, and so the same number of columns and of rows; only headers
    differ. *)
Theorem preprocess_cereals_keeps_data
    (st : store) (df : ref) (t t' : DataFrame) :
  st !! df = Some t ->
  returned_frame (V3.preprocess_cereals df) st = Return t' ->
  map snd t' = map snd t /\ length t' = length t /\ nrows t' = nrows t.
Proof.
  intros Hdf Hret.
  assert (Hdata : map snd t' = map snd t).
  { unfold returned_frame in Hret.
    rewrite (preprocess_cereals_run _ _ _ Hdf) in Hret. cbv zeta in Hret.
    destruct (contains "name" (columns (lowercased t))).
    - rewrite (deref_updated _ _ _ _ Hdf) in Hret.
      injection Hret as <-. apply data_lowercased.
    - destruct (contains "brand" (columns (lowercased t))); [| discriminate ].
      rewrite deref_fresh in Hret. injection Hret as <-.
      unfold rename_columns. rewrite map_map. cbn [snd].
      apply data_lowercased. }
  split; [ exact Hdata |]. split.
  - rewrite <- (length_map snd t'), Hdata. apply length_map.
  - destruct t' as [| [h' c'] t'], t as [| [h c] t]; try discriminate.
    + reflexivity.
    + cbn in Hdata. injection Hdata as -> _. reflexivity.
Qed.

Lemma preprocess_cereals_keeps_data_witness :
  map snd (rename_columns "brand" "name" (lowercased brand_df)) =
    map snd brand_df.
Proof.
  apply (preprocess_cereals_keeps_data [brand_df] 0 brand_df);
    reflexivity.
Defined.

(** The Normalizer writes to its argument and to nothing else.  After any
    call, successful or not, the argument holds its table with the headers
    lower-cased, every other table of the store is as it was, and at most
    one table has been added. *)
Theorem preprocess_cereals_frame
    (st : store) (df : ref) (t : DataFrame) :
  st !! df = Some t ->
  fst (V3.preprocess_cereals df st) !! df = Some (lowercased t) /\
  (forall r, r <> df -> r < length st ->
     fst (V3.preprocess_cereals df st) !! r = st !! r) /\
  length st <= length (fst (V3.preprocess_cereals df st)) <= S (length st).
Proof.
  intros Hdf.
  assert (Hlt : df < length st) by now apply lookup_lt_Some in Hdf.
  rewrite (preprocess_cereals_run _ _ _ Hdf). cbv zeta.
  set (st1 := <[df := lowercased t]> st).
  assert (Hlen : length st1 = length st) by apply length_insert.
  assert (Hat : st1 !! df = Some (lowercased t))
    by now apply list_lookup_insert_eq.
  assert (Hother : forall r, r <> df -> st1 !! r = st !! r).
  { intros r Hr. apply list_lookup_insert_ne. congruence. }
  destruct (contains "name" (columns (lowercased t)));
    [| destruct (contains "brand" (columns (lowercased t))) ]; cbn [fst].
  - split; [ exact Hat |]. split; [ auto | lia ].
  - split; [ now apply lookup_app_l_Some |]. split.
    + intros r Hr Hrlt. rewrite lookup_app_l by lia. auto.
    + rewrite length_app. cbn [length]. lia.
  - split; [ exact Hat |]. split; [ auto | lia ].
Qed.

Lemma preprocess_cereals_frame_witness :
  fst (V3.preprocess_cereals 1 [test_df; capitalised_df]) !! 0%nat =
    Some test_df.
Proof.
  refine (proj1 (proj2 (preprocess_cereals_frame [test_df; capitalised_df] 1
                          capitalised_df eq_refl)) 0 _ _).
  - lia.
  - simpl. lia.
Defined.

(** Which object comes back.  With a [name] column the call returns its
    argument itself and adds nothing to the store.  Without one it returns a
    new object, distinct from every object of the store, and the argument is
    left with its [brand] column and still without a [name] column: a caller
    that goes on using its own table does not see the rename. *)
Theorem preprocess_cereals_aliasing
    (st st' : store) (df df' : ref) (t : DataFrame) :
  st !! df = Some t ->
  V3.preprocess_cereals df st = (st', Return df') ->
  (In "name" (index_str_lower (columns t)) ->
   df' = df /\ length st' = length st) /\
  (~ In "name" (index_str_lower (columns t)) ->
   df' = length st /\ df' <> df /\ st !! df' = None /\
   st' !! df = Some (lowercased t) /\
   In "brand" (columns (lowercased t)) /\
   ~ In "name" (columns (lowercased t)) /\
   st' !! df' = Some (rename_columns "brand" "name" (lowercased t))).
Proof.
  intros Hdf Hcall.
  assert (Hlt : df < length st) by now apply lookup_lt_Some in Hdf.
  rewrite (preprocess_cereals_run _ _ _ Hdf) in Hcall. cbv zeta in Hcall.
  rewrite <- columns_lowercased.
  destruct (contains "name" (columns (lowercased t))) eqn:Hname.
  - apply contains_In in Hname. injection Hcall as <- <-.
    split; [| contradiction ].
    intros _. split; [ reflexivity | apply length_insert ].
  - apply contains_not_In in Hname.
    destruct (contains "brand" (columns (lowercased t))) eqn:Hbrand;
      [| discriminate ].
    apply contains_In in Hbrand. injection Hcall as <- <-.
    split; [ contradiction |]. intros _.
    rewrite length_insert.
    repeat split; try assumption.
    + lia.
    + apply lookup_ge_None. lia.
    + apply lookup_app_l_Some. now apply list_lookup_insert_eq.
    + rewrite <- (length_insert st df (lowercased t)).
      now apply list_lookup_middle.
Qed.

Lemma preprocess_cereals_aliasing_witness :
  [lowercased brand_df;
   rename_columns "brand" "name" (lowercased brand_df)] !! 0%nat =
    Some (lowercased brand_df) /\
  ~ In "name" (columns (lowercased brand_df)).
Proof.
  destruct (preprocess_cereals_aliasing
              [brand_df]
              [lowercased brand_df;
               rename_columns "brand" "name" (lowercased brand_df)]
              0 1 brand_df eq_refl eq_refl) as [_ H].
  destruct H as (_ & _ & _ & Hat & _ & Hno & _).
  - vm_compute. intuition discriminate.
  - split; assumption.
Defined.

(** On a table that is normalised already (lower-case headers, [name] among
    them) the Normalizer does nothing: the store is unchanged and the
    argument is returned. *)
Theorem preprocess_cereals_noop_on_normalised
    (st : store) (df : ref) (t : DataFrame) :
  st !! df = Some t ->
  Forall (fun h => str_lower h = h) (columns t) ->
  In "name" (columns t) ->
  V3.preprocess_cereals df st = (st, Return df).
Proof.
  intros Hdf Hlower Hname.
  rewrite (preprocess_cereals_run _ _ _ Hdf). cbv zeta.
  rewrite (lowercased_fixed t Hlower).
  apply contains_In in Hname. rewrite Hname.
  f_equal. exact (list_insert_id _ _ _ Hdf).
Qed.

Lemma preprocess_cereals_noop_on_normalised_witness :
  V3.preprocess_cereals 0 [test_df] = ([test_df], Return 0%nat).
Proof.
  apply (preprocess_cereals_noop_on_normalised [test_df] 0 test_df).
  - reflexivity.
  - vm_compute. repeat constructor.
  - vm_compute. tauto.
Defined.

(** ** Label lookup *)

Lemma filter_label_count (t : DataFrame) (key : string) :
  length (List.filter (fun hc => String.eqb (fst hc) key) t) =
    count_occ string_dec (columns t) key.
Proof.
  induction t as [| [h c] t IH]; [ reflexivity |].
  cbn [List.filter columns map fst count_occ].
  destruct (String.eqb_spec h key) as [-> | Hne].
  - destruct (string_dec key key); [| congruence ]. cbn [length].
    now rewrite IH.
  - destruct (string_dec h key); [ congruence | exact IH ].
Qed.

Lemma get_label_values_absent (t : DataFrame) (key : string) :
  ~ In key (columns t) -> get_label_values t key = Raise (KeyError key).
Proof.
  intros Hno. apply (count_occ_not_In string_dec) in Hno.
  rewrite <- filter_label_count in Hno. unfold get_label_values.
  now destruct (List.filter (fun hc => String.eqb (fst hc) key) t).
Qed.

Lemma get_label_values_repeated (t : DataFrame) (key : string) :
  2 <= count_occ string_dec (columns t) key ->
  get_label_values t key =
    Raise (ValueError
             (String.append "The column label '"
                (String.append key "' is not unique."))).
Proof.
  rewrite <- filter_label_count. unfold get_label_values.
  destruct (List.filter (fun hc => String.eqb (fst hc) key) t)
    as [| [h c] [| hc' l]]; cbn [length]; intros H; try lia.
  reflexivity.
Qed.

Lemma getitem_absent (row : Series) (key : string) :
  ~ In key (map fst row) -> getitem row key = Raise (KeyError key).
Proof.
  intros Hno. unfold getitem.
  destruct (List.filter (fun hv => String.eqb (fst hv) key) row)
    as [| [h v] l] eqn:E; [ reflexivity | exfalso ].
  assert (Hin : In (h, v) (List.filter
                             (fun hv => String.eqb (fst hv) key) row))
    by (rewrite E; now left).
  apply filter_In in Hin as [Hin Heq]. cbn [fst] in Heq.
  apply String.eqb_eq in Heq. subst h.
  apply Hno, in_map_iff. now exists (key, v).
Qed.

(** ** The Selector: store, missing columns, repeated labels *)

Lemma v3_find_full (st : store) (df : ref) :
  V3.find_highest_protein_cereal df st =
    match get_keys (st !!! df) ["protein"; "calories"] with
    | Raise e => (st, Raise e)
    | Return keys =>
        let sorted :=
          take (lexsort_indexer keys (nrows (st !!! df))) (st !!! df) in
        (st ++ [sorted],
         match iloc sorted 0 with
         | Raise e => Raise e
         | Return row => getitem row "name"
         end)
    end.
Proof.
  unfold V3.find_highest_protein_cereal, V3.sort_values, iloc_ref,
    bind, deref, lift, alloc.
  destruct (get_keys (st !!! df) ["protein"; "calories"]) as [keys | e];
    [| reflexivity ].
  cbv zeta. rewrite deref_fresh.
  destruct (iloc _ 0); reflexivity.
Qed.

Lemma v0_find_full
    (argsort : forall A : Type, (A -> A -> bool) -> list A -> list nat)
    (st : store) (df : ref) :
  V0.find_highest_protein_cereal argsort df st =
    match get_label_values (st !!! df) "protein" with
    | Raise e => (st, Raise e)
    | Return k =>
        let sorted := take (V0.nargsort argsort k) (st !!! df) in
        (st ++ [sorted],
         match iloc sorted 0 with
         | Raise e => Raise e
         | Return row => getitem row "name"
         end)
    end.
Proof.
  unfold V0.find_highest_protein_cereal, V0.sort_values, iloc_ref,
    bind, deref, lift, alloc.
  destruct (get_label_values (st !!! df) "protein") as [k | e];
    [| reflexivity ].
  cbv zeta. rewrite deref_fresh.
  destruct (iloc _ 0); reflexivity.
Qed.

(** Neither Selector writes to a table.  Whatever the argument and whatever
    the outcome, the store after the call is the store before it, followed
    by at most one new table (the sorted copy). *)
Theorem selectors_leave_tables_alone
    (argsort : forall A : Type, (A -> A -> bool) -> list A -> list nat)
    (st : store) (df : ref) :
  (exists new, fst (V3.find_highest_protein_cereal df st) = st ++ new /\
               length new <= 1) /\
  (exists new, fst (V0.find_highest_protein_cereal argsort df st) = st ++ new /\
               length new <= 1).
Proof.
  split.
  - rewrite v3_find_full.
    destruct (get_keys (st !!! df) ["protein"; "calories"]) as [keys | e].
    + eexists [_]. split; [ reflexivity | simpl; lia ].
    + exists []. split; [ now rewrite app_nil_r | simpl; lia ].
  - rewrite v0_find_full.
    destruct (get_label_values (st !!! df) "protein") as [k | e].
    + eexists [_]. split; [ reflexivity | simpl; lia ].
    + exists []. split; [ now rewrite app_nil_r | simpl; lia ].
Qed.

(** A missing sort column is reported first.  Without a [protein] column the
    v3 Selector raises [KeyError('protein')], and with [protein] but without
    [calories] it raises [KeyError('calories')], whether or not the table
    has rows or a [name] column; in both cases nothing is added to the
    store. *)
Theorem find_highest_protein_cereal_missing_sort_column
    (st : store) (df : ref) (t : DataFrame) :
  st !! df = Some t ->
  (~ In "protein" (columns t) ->
   V3.find_highest_protein_cereal df st = (st, Raise (KeyError "protein"))) /\
  (forall c, get_label_values t "protein" = Return c ->
   ~ In "calories" (columns t) ->
   V3.find_highest_protein_cereal df st = (st, Raise (KeyError "calories"))).
Proof.
  intros Hdf. rewrite v3_find_full, (deref_at _ _ _ Hdf). split.
  - intros Hno. cbn [get_keys].
    now rewrite (get_label_values_absent _ _ Hno).
  - intros c Hc Hno. cbn [get_keys].
    now rewrite Hc, (get_label_values_absent _ _ Hno).
Qed.

Lemma find_highest_protein_cereal_missing_sort_column_witness :
  V3.find_highest_protein_cereal 0 [capitalised_df] =
    ([capitalised_df], Raise (KeyError "protein")).
Proof.
  apply (find_highest_protein_cereal_missing_sort_column
           [capitalised_df] 0 capitalised_df eq_refl).
  vm_compute. intuition discriminate.
Defined.

Lemma lexsort_indexer_length (keys : list column) (n : nat) :
  length (lexsort_indexer keys n) = n.
Proof.
  unfold lexsort_indexer. now rewrite stable_sort_length, length_seq.
Qed.

Lemma columns_row (t : DataFrame) (i : nat) :
  map fst (map (fun hc => (fst hc, cell (snd hc) i)) t) = columns t.
Proof. rewrite map_map. reflexivity. Qed.

(** Without a [name] column the v3 Selector sorts the table all the same and
    only then raises [KeyError('name')], provided the two sort columns are
    there and the table has a row. *)
Theorem find_highest_protein_cereal_missing_name
    (st : store) (df : ref) (t : DataFrame) (p c : column) :
  st !! df = Some t ->
  get_label_values t "protein" = Return p ->
  get_label_values t "calories" = Return c ->
  0 < nrows t ->
  ~ In "name" (columns t) ->
  outcome (V3.find_highest_protein_cereal df) st = Raise (KeyError "name") /\
  length (fst (V3.find_highest_protein_cereal df st)) = S (length st).
Proof.
  intros Hdf Hp Hc Hrows Hno.
  assert (Ht : t <> []) by (destruct t; [ simpl in Hrows; lia | discriminate ]).
  unfold outcome.
  rewrite v3_find_full, (deref_at _ _ _ Hdf), (get_keys_two _ _ _ _ _ Hp Hc).
  cbv zeta. cbn [fst snd]. split.
  - pose proof (lexsort_indexer_length [p; c] (nrows t)) as Hlen.
    destruct (lexsort_indexer [p; c] (nrows t)) as [| m rest];
      [ simpl in Hlen; lia |].
    rewrite (iloc_take _ _ _ Ht). apply getitem_absent.
    now rewrite columns_row.
  - rewrite length_app. simpl. lia.
Qed.

Lemma find_highest_protein_cereal_missing_name_witness :
  outcome (V3.find_highest_protein_cereal 0) [anonymous_df] =
    Raise (KeyError "name").
Proof.
  apply (find_highest_protein_cereal_missing_name [anonymous_df] 0
           anonymous_df (IntCol [4; 1]%Z) (IntCol [70; 110]%Z)).
  - reflexivity.
  - reflexivity.
  - reflexivity.
  - simpl. lia.
  - vm_compute. intuition discriminate.
Defined.

(** ** What [sort_values] returns *)

Section StableSortOrder.

Variable before : nat -> nat -> bool.
Hypothesis before_total : forall i j, before i j = false -> before j i = true.
Hypothesis before_trans :
  forall i j k, before i j = true -> before j k = true -> before i k = true.

Lemma insert_pos_stable (i : nat) (l : list nat) :
  (forall y, In y l -> i < y) ->
  StronglySorted (in_stable_order before) l ->
  StronglySorted (in_stable_order before) (insert_pos before i l).
Proof.
  induction l as [| j l IH]; intros Hmin Hs; simpl.
  - repeat constructor.
  - inversion Hs as [| ? ? Hs' Hj]; subst.
    rewrite List.Forall_forall in Hj.
    destruct (before i j) eqn:E.
    + constructor; [ assumption |].
      apply List.Forall_forall. intros y Hy. split.
      * destruct Hy as [<- | Hy]; [ assumption |].
        apply before_trans with j; [ assumption | now apply Hj ].
      * intros _. now apply Hmin.
    + constructor.
      * apply IH; [ intros y Hy; apply Hmin; now right | assumption ].
      * apply List.Forall_forall. intros y Hy.
        apply (Permutation_in _ (insert_pos_perm before i l)) in Hy.
        destruct Hy as [<- | Hy]; [| now apply Hj ].
        split; [ now apply before_total | congruence ].
Qed.

Lemma stable_sort_stable (l : list nat) :
  StronglySorted lt l ->
  StronglySorted (in_stable_order before) (stable_sort before l).
Proof.
  induction l as [| x l IH]; intros Hs; simpl; [ constructor |].
  inversion Hs as [| ? ? Hs' Hx]; subst.
  rewrite List.Forall_forall in Hx.
  apply insert_pos_stable; [| now apply IH ].
  intros y Hy. apply Hx.
  now apply (Permutation_in _ (stable_sort_perm before l)).
Qed.

End StableSortOrder.

Lemma filter_take (indexer : list nat) (t : DataFrame) (key : string) :
  List.filter (fun hc => String.eqb (fst hc) key) (take indexer t) =
  take indexer (List.filter (fun hc => String.eqb (fst hc) key) t).
Proof.
  unfold take. induction t as [| [h c] t IH]; simpl; [ reflexivity |].
  destruct (String.eqb h key); simpl; now rewrite IH.
Qed.

Lemma get_label_values_take
    (indexer : list nat) (t : DataFrame) (key : string) (c : column) :
  get_label_values t key = Return c ->
  get_label_values (take indexer t) key = Return (take_col indexer c).
Proof.
  intros (h & Hf)%get_label_values_unique.
  unfold get_label_values. now rewrite filter_take, Hf.
Qed.

(** The table [sort_values] makes.  On a table of [n] rows with integer
    [protein] and [calories] the call leaves its argument alone and returns
    a new table with the same headers whose rows are the rows of the
    argument, each once, so arranged that a row never comes before one with
    more protein, or with as much protein and more calories, and that rows
    equal in both stay in their original order. *)
Theorem sort_values_sorted
    (st : store) (df : ref) (t : DataFrame) (n : nat) (ps cs : list Z) :
  st !! df = Some t ->
  Forall (fun hc => col_length (snd hc) = n) t ->
  get_label_values t "protein" = Return (IntCol ps) ->
  get_label_values t "calories" = Return (IntCol cs) ->
  exists indexer,
    V3.sort_values df ["protein"; "calories"] st =
      (st ++ [take indexer t], Return (length st)) /\
    Permutation indexer (seq 0 n) /\
    columns (take indexer t) = columns t /\
    get_label_values (take indexer t) "protein" =
      Return (IntCol (map (fun i => nth i ps 0%Z) indexer)) /\
    get_label_values (take indexer t) "calories" =
      Return (IntCol (map (fun i => nth i cs 0%Z) indexer)) /\
    StronglySorted
      (fun i j =>
         (nth j ps 0 < nth i ps 0 \/
          (nth j ps 0 = nth i ps 0 /\ nth j cs 0 <= nth i cs 0))%Z /\
         (nth i ps 0%Z = nth j ps 0%Z -> nth i cs 0%Z = nth j cs 0%Z ->
          i < j))
      indexer.
Proof.
  intros Hdf Hlen Hp Hc.
  assert (Ht : t <> []).
  { apply get_label_values_In in Hp. now destruct t. }
  exists (lexsort_indexer [IntCol ps; IntCol cs] n).
  split; [| split; [| split; [| split; [| split ]]]].
  - unfold V3.sort_values, bind, deref, lift, alloc.
    rewrite (deref_at _ _ _ Hdf), (get_keys_two _ _ _ _ _ Hp Hc).
    now rewrite (nrows_uniform t n Hlen Ht).
  - apply stable_sort_perm.
  - unfold columns, take. rewrite map_map. reflexivity.
  - exact (get_label_values_take _ _ _ _ Hp).
  - exact (get_label_values_take _ _ _ _ Hc).
  - pose proof (stable_sort_stable (descending [IntCol ps; IntCol cs])
                  (descending_int_total ps cs) (descending_int_trans ps cs)
                  (seq 0 n) (seq_increasing 0 n)) as Hs.
    unfold lexsort_indexer.
    induction Hs as [| a l Hs IH Ha]; constructor; [ exact IH |].
    rewrite List.Forall_forall in *. intros b Hb.
    destruct (Ha b Hb) as [Hab Hba]. split.
    + now apply descending_int.
    + intros Hpe Hce. apply Hba, descending_int. lia.
Qed.

Lemma sort_values_sorted_witness :
  exists indexer,
    V3.sort_values 0 ["protein"; "calories"] [test_df] =
      ([test_df; take indexer test_df], Return 1%nat) /\
    Permutation indexer (seq 0 3).
Proof.
  destruct (sort_values_sorted [test_df] 0 test_df 3
              [4; 4; 1]%Z [70; 50; 110]%Z)
    as (indexer & Hrun & Hperm & _).
  - reflexivity.
  - vm_compute. repeat constructor.
  - reflexivity.
  - reflexivity.
  - exists indexer. split; assumption.
Defined.

(** ** Repeated labels *)




Lemma returned_frame_cases (st : store) (df : ref) (t : DataFrame) :
  st !! df = Some t ->
  returned_frame (V3.preprocess_cereals df) st =
    if contains "name" (columns (lowercased t)) then Return (lowercased t)
    else if contains "brand" (columns (lowercased t)) then
      Return (rename_columns "brand" "name" (lowercased t))
    else Raise (ValueError "df does not contain column 'name'").
Proof.
  intros Hdf. unfold returned_frame.
  rewrite (preprocess_cereals_run _ _ _ Hdf). cbv zeta.
  destruct (contains "name" (columns (lowercased t))).
  - now rewrite (deref_updated _ _ _ _ Hdf).
  - destruct (contains "brand" (columns (lowercased t))); [| reflexivity ].
    now rewrite deref_fresh.
Qed.

Lemma count_occ_rename (labels : list string) (key : string) :
  key <> "brand" -> key <> "name" ->
  count_occ string_dec (map (rename_label "brand" "name") labels) key =
  count_occ string_dec labels key.
Proof.
  intros Hb Hn. induction labels as [| h l IH]; [ reflexivity |].
  cbn [map count_occ].
  destruct (String.eqb_spec h "brand") as [-> | Hne].
  - change (rename_label "brand" "name" "brand") with "name".
    destruct (string_dec "name" key); [ congruence |].
    destruct (string_dec "brand" key); [ congruence | exact IH ].
  - replace (rename_label "brand" "name" h) with h.
    + destruct (string_dec h key); now rewrite IH.
    + unfold rename_label.
      destruct (String.eqb_spec h "brand"); congruence.
Qed.

(** Lower-casing can make two headers collide.  When two or more headers of
    the input lower-case to [protein] (say [Protein] and [PROTEIN]) and the
    Normalizer succeeds, the pipeline raises the [ValueError] of pandas for
    an ambiguous sort column. *)
Theorem pipeline_repeated_protein
    (st : store) (df : ref) (t : DataFrame) :
  st !! df = Some t ->
  In "name" (index_str_lower (columns t)) \/
  In "brand" (index_str_lower (columns t)) ->
  2 <= count_occ string_dec (index_str_lower (columns t)) "protein" ->
  outcome (V3.best_preworkout_cereal_pipeline df) st =
    Raise (ValueError "The column label 'protein' is not unique.").
Proof.
  intros Hdf Hid Hrep.
  rewrite <- columns_lowercased in Hid, Hrep.
  rewrite pipeline_run, (returned_frame_cases _ _ _ Hdf).
  destruct (contains "name" (columns (lowercased t))) eqn:Hname.
  - rewrite v3_find_run. cbn [get_keys].
    change ([lowercased t] !!! 0) with (lowercased t).
    now rewrite (get_label_values_repeated _ _ Hrep).
  - apply contains_not_In in Hname.
    destruct Hid as [Hid | Hid]; [ contradiction |].
    apply contains_In in Hid. rewrite Hid.
    rewrite v3_find_run. cbn [get_keys].
    change ([rename_columns "brand" "name" (lowercased t)] !!! 0)
      with (rename_columns "brand" "name" (lowercased t)).
    rewrite get_label_values_repeated; [ reflexivity |].
    rewrite columns_rename, count_occ_rename by discriminate. exact Hrep.
Qed.

Lemma pipeline_repeated_protein_witness :
  outcome (V3.best_preworkout_cereal_pipeline 0) [two_proteins_df] =
    Raise (ValueError "The column label 'protein' is not unique.").
Proof.
  apply (pipeline_repeated_protein [two_proteins_df] 0 two_proteins_df).
  - reflexivity.
  - left. vm_compute. tauto.
  - vm_compute. lia.
Defined.

(** ** The pipeline from end to end *)

Lemma uniform_lowercased (t : DataFrame) (n : nat) :
  Forall (fun hc => col_length (snd hc) = n) t ->
  Forall (fun hc => col_length (snd hc) = n) (lowercased t).
Proof.
  rewrite lowercased_map. intros H. apply List.Forall_map.
  revert H. apply List.Forall_impl. intros [h c]. exact id.
Qed.

Lemma uniform_rename (old new : string) (t : DataFrame) (n : nat) :
  Forall (fun hc => col_length (snd hc) = n) t ->
  Forall (fun hc => col_length (snd hc) = n) (rename_columns old new t).
Proof.
  unfold rename_columns. intros H. apply List.Forall_map.
  revert H. apply List.Forall_impl. intros [h c]. exact id.
Qed.

Lemma rename_label_other (h key : string) :
  key <> "brand" -> key <> "name" ->
  String.eqb (rename_label "brand" "name" h) key = String.eqb h key.
Proof.
  intros Hb Hn. unfold rename_label.
  destruct (String.eqb_spec h "brand") as [-> | Hne]; [| reflexivity ].
  destruct (String.eqb_spec "name" key), (String.eqb_spec "brand" key);
    congruence.
Qed.

Lemma get_label_values_rename_other (t : DataFrame) (key : string) :
  key <> "brand" -> key <> "name" ->
  get_label_values (rename_columns "brand" "name" t) key =
  get_label_values t key.
Proof.
  intros Hb Hn. unfold get_label_values.
  assert (Hf : List.filter (fun hc => String.eqb (fst hc) key)
                 (rename_columns "brand" "name" t) =
               rename_columns "brand" "name"
                 (List.filter (fun hc => String.eqb (fst hc) key) t)).
  { unfold rename_columns. induction t as [| [h c] t IH]; [ reflexivity |].
    cbn [map List.filter fst snd]. rewrite (rename_label_other h key Hb Hn).
    destruct (String.eqb h key); cbn [map fst snd]; now rewrite IH. }
  rewrite Hf.
  now destruct (List.filter (fun hc => String.eqb (fst hc) key) t)
    as [| [h c] [| hc' l]].
Qed.

Lemma get_label_values_rename_name (t : DataFrame) (c : column) :
  ~ In "name" (columns t) ->
  get_label_values t "brand" = Return c ->
  get_label_values (rename_columns "brand" "name" t) "name" = Return c.
Proof.
  intros Hno (h & Hb)%get_label_values_unique. unfold get_label_values.
  assert (Hf : List.filter (fun hc => String.eqb (fst hc) "name")
                 (rename_columns "brand" "name" t) =
               rename_columns "brand" "name"
                 (List.filter (fun hc => String.eqb (fst hc) "brand") t)).
  { clear Hb. unfold rename_columns.
    induction t as [| [h' c'] t IH]; [ reflexivity |].
    cbn [map List.filter fst snd].
    assert (Hne : h' <> "name") by (intros ->; apply Hno; now left).
    assert (Hno' : ~ In "name" (columns t))
      by (intros Hin; apply Hno; now right).
    unfold rename_label at 1.
    destruct (String.eqb_spec h' "brand") as [-> | Hnb].
    - cbn [String.eqb]. cbn [map fst snd]. now rewrite (IH Hno').
    - destruct (String.eqb_spec h' "name"); [ congruence |]. exact (IH Hno'). }
  rewrite Hf, Hb. reflexivity.
Qed.

(** With a name column.  Let the table have [n > 0] rows and, its headers
    lower-cased, one column each for [name], [protein] and [calories], the
    last two of integers.  Then the v3 pipeline returns the [name] cell of
    the first row with the most protein and, at that, the most calories,
    however the headers were capitalised. *)
Theorem pipeline_selects_by_name
    (st : store) (df : ref) (t : DataFrame) (n : nat)
    (ps cs : list Z) (names : column) :
  st !! df = Some t ->
  Forall (fun hc => col_length (snd hc) = n) t ->
  0 < n ->
  get_label_values (lowercased t) "protein" = Return (IntCol ps) ->
  get_label_values (lowercased t) "calories" = Return (IntCol cs) ->
  get_label_values (lowercased t) "name" = Return names ->
  exists m,
    m < n /\
    outcome (V3.best_preworkout_cereal_pipeline df) st =
      Return (Scalar (cell names m)) /\
    (forall j, j < n ->
       (nth j ps 0 < nth m ps 0 \/
        (nth j ps 0 = nth m ps 0 /\ nth j cs 0 <= nth m cs 0))%Z) /\
    (forall j, j < m ->
       (nth j ps 0 < nth m ps 0 \/
        (nth j ps 0 = nth m ps 0 /\ nth j cs 0 < nth m cs 0))%Z).
Proof.
  intros Hdf Hlen Hn Hp Hc Hname.
  rewrite pipeline_run, (returned_frame_cases _ _ _ Hdf).
  assert (Hin : contains "name" (columns (lowercased t)) = true).
  { apply contains_In.
    destruct (get_label_values_unique _ _ _ Hname) as [h Hf].
    assert (Hhc : In (h, names)
                    (List.filter (fun hc => String.eqb (fst hc) "name")
                       (lowercased t))) by (rewrite Hf; now left).
    apply filter_In in Hhc as [Hhc Heq]. cbn [fst] in Heq.
    apply String.eqb_eq in Heq. subst h.
    unfold columns. apply in_map_iff. now exists ("name", names). }
  rewrite Hin.
  apply (v3_selects [lowercased t] 0 (lowercased t) n ps cs names);
    try assumption; [ reflexivity | now apply uniform_lowercased ].
Qed.

Lemma pipeline_selects_by_name_witness :
  exists m,
    m < 2 /\
    outcome (V3.best_preworkout_cereal_pipeline 0) [capitalised_df] =
      Return (Scalar (cell (StrCol ["Bran"; "Honey-comb"]) m)).
Proof.
  destruct (pipeline_selects_by_name [capitalised_df] 0 capitalised_df 2
              [4; 1]%Z [70; 110]%Z (StrCol ["Bran"; "Honey-comb"]))
    as (m & Hm & Hout & _).
  - reflexivity.
  - vm_compute. repeat constructor.
  - lia.
  - reflexivity.
  - reflexivity.
  - reflexivity.
  - exists m. split; assumption.
Defined.

(** With a brand column instead.  Let no header lower-case to [name] and
    exactly one to [brand], the rest as before.  Then the v3 pipeline
    returns the [brand] cell of the row selected in the same way. *)
Theorem pipeline_selects_by_brand
    (st : store) (df : ref) (t : DataFrame) (n : nat)
    (ps cs : list Z) (brands : column) :
  st !! df = Some t ->
  Forall (fun hc => col_length (snd hc) = n) t ->
  0 < n ->
  get_label_values (lowercased t) "protein" = Return (IntCol ps) ->
  get_label_values (lowercased t) "calories" = Return (IntCol cs) ->
  ~ In "name" (index_str_lower (columns t)) ->
  get_label_values (lowercased t) "brand" = Return brands ->
  exists m,
    m < n /\
    outcome (V3.best_preworkout_cereal_pipeline df) st =
      Return (Scalar (cell brands m)) /\
    (forall j, j < n ->
       (nth j ps 0 < nth m ps 0 \/
        (nth j ps 0 = nth m ps 0 /\ nth j cs 0 <= nth m cs 0))%Z) /\
    (forall j, j < m ->
       (nth j ps 0 < nth m ps 0 \/
        (nth j ps 0 = nth m ps 0 /\ nth j cs 0 < nth m cs 0))%Z).
Proof.
  intros Hdf Hlen Hn Hp Hc Hno Hbrand.
  rewrite <- columns_lowercased in Hno.
  rewrite pipeline_run, (returned_frame_cases _ _ _ Hdf).
  assert (Hn0 : contains "name" (columns (lowercased t)) = false)
    by now apply contains_not_In.
  assert (Hb1 : contains "brand" (columns (lowercased t)) = true).
  { apply contains_In.
    destruct (get_label_values_unique _ _ _ Hbrand) as [h Hf].
    assert (Hhc : In (h, brands)
                    (List.filter (fun hc => String.eqb (fst hc) "brand")
                       (lowercased t))) by (rewrite Hf; now left).
    apply filter_In in Hhc as [Hhc Heq]. cbn [fst] in Heq.
    apply String.eqb_eq in Heq. subst h.
    unfold columns. apply in_map_iff. now exists ("brand", brands). }
  rewrite Hn0, Hb1.
  set (t' := rename_columns "brand" "name" (lowercased t)).
  apply (v3_selects [t'] 0 t' n ps cs brands).
  - reflexivity.
  - now apply uniform_rename, uniform_lowercased.
  - assumption.
  - unfold t'. now rewrite get_label_values_rename_other by discriminate.
  - unfold t'. now rewrite get_label_values_rename_other by discriminate.
  - now apply get_label_values_rename_name.
Qed.

Lemma pipeline_selects_by_brand_witness :
  exists m,
    m < 2 /\
    outcome (V3.best_preworkout_cereal_pipeline 0) [brand_df] =
      Return (Scalar (cell (StrCol ["Bran"; "Honey-comb"]) m)).
Proof.
  destruct (pipeline_selects_by_brand [brand_df] 0 brand_df 2
              [4; 1]%Z [70; 110]%Z (StrCol ["Bran"; "Honey-comb"]))
    as (m & Hm & Hout & _).
  - reflexivity.
  - vm_compute. repeat constructor.
  - lia.
  - reflexivity.
  - reflexivity.
  - vm_compute. intuition discriminate.
  - reflexivity.
  - exists m. split; assumption.
Defined.

Lemma renamed_copy_normalised (t : DataFrame) :
  In "name" (columns t) ->
  (forall h, In h (columns t) -> str_lower h = "name" -> h = "name") ->
  (forall h, In h (columns t) -> str_lower h <> "brand") ->
  let copy := rename_columns "name" "brand" t in
  contains "name" (columns (lowercased copy)) = false /\
  contains "brand" (columns (lowercased copy)) = true /\
  rename_columns "brand" "name" (lowercased copy) = lowercased t /\
  contains "name" (columns (lowercased t)) = true.
Proof.
  intros Hname Honly Hnobrand copy.
  assert (Hlab : columns (lowercased copy) =
                 map (fun h => if String.eqb h "name" then "brand"
                               else str_lower h) (columns t)).
  { rewrite columns_lowercased. unfold copy. rewrite columns_rename.
    unfold index_str_lower. rewrite map_map. apply map_ext.
    intros h. unfold rename_label. now destruct (String.eqb h "name"). }
  split; [| split; [| split ]].
  - apply contains_not_In. rewrite Hlab.
    intros (h & Hh & Hin)%in_map_iff.
    destruct (String.eqb_spec h "name") as [| Hne]; [ discriminate |].
    apply Hne. now apply Honly.
  - apply contains_In. rewrite Hlab. apply in_map_iff.
    exists "name". now split.
  - rewrite !lowercased_map. unfold copy, rename_columns. rewrite !map_map.
    apply map_ext_in. intros [h c] Hin. cbn [fst snd]. f_equal.
    assert (Hh : In h (columns t)).
    { unfold columns. apply in_map_iff. now exists (h, c). }
    unfold rename_label.
    destruct (String.eqb_spec h "name") as [-> | Hne]; [ reflexivity |].
    destruct (String.eqb_spec (str_lower h) "brand") as [E |];
      [| reflexivity ].
    now apply Hnobrand in E.
  - apply contains_In. rewrite columns_lowercased.
    apply in_map_iff. exists "name". now split.
Qed.

(** The pipeline does not care whether the identifying column is called
    [name] or [brand].  When [name] is the only header that lower-cases to
    [name] and none lower-cases to [brand], the pipeline has the same
    outcome, value or exception, on the copy with [name] renamed to [brand]
    as on the table itself.  This is what the third table of
    [test_smoke_pipeline] exercises. *)
Theorem pipeline_renaming
    (st1 st2 : store) (df1 df2 : ref) (t : DataFrame) :
  st1 !! df1 = Some t ->
  st2 !! df2 = Some (rename_columns "name" "brand" t) ->
  In "name" (columns t) ->
  (forall h, In h (columns t) -> str_lower h = "name" -> h = "name") ->
  (forall h, In h (columns t) -> str_lower h <> "brand") ->
  outcome (V3.best_preworkout_cereal_pipeline df2) st2 =
  outcome (V3.best_preworkout_cereal_pipeline df1) st1.
Proof.
  intros H1 H2 Hname Honly Hnobrand.
  destruct (renamed_copy_normalised t Hname Honly Hnobrand)
    as (Hn2 & Hb2 & Hback & Hn1).
  rewrite !pipeline_run.
  rewrite (returned_frame_cases _ _ _ H1), (returned_frame_cases _ _ _ H2).
  now rewrite Hn2, Hb2, Hback, Hn1.
Qed.

Lemma pipeline_renaming_witness :
  outcome (V3.best_preworkout_cereal_pipeline 0)
    [rename_columns "name" "brand" test_df] =
  outcome (V3.best_preworkout_cereal_pipeline 0) [test_df].
Proof.
  apply (pipeline_renaming [test_df] [rename_columns "name" "brand" test_df]
           0 0 test_df).
  - reflexivity.
  - reflexivity.
  - vm_compute. tauto.
  - intros h Hin Hl. vm_compute in Hin.
    destruct Hin as [<- | [<- | [<- | []]]];
      [ reflexivity | discriminate Hl | discriminate Hl ].
  - intros h Hin. vm_compute in Hin.
    destruct Hin as [<- | [<- | [<- | []]]]; discriminate.
Defined.

(** ** The v0 Selector *)

(** Whatever order [argsort] gives to equal values, [nargsort] puts first a
    row of greatest value. *)
Lemma nargsort_head_max
    (argsort : forall A : Type, (A -> A -> bool) -> list A -> list nat)
    (ps : list Z) :
  V0.argsort_spec argsort ->
  0 < length ps ->
  exists m rest,
    V0.nargsort argsort (IntCol ps) = m :: rest /\
    m < length ps /\
    (forall j, j < length ps -> (nth j ps 0 <= nth m ps 0)%Z).
Proof.
  intros Hspec Hpos.
  destruct (Hspec (rev ps)) as [Hperm Hsorted].
  rewrite length_rev in Hperm.
  unfold V0.nargsort. cbn [col_length].
  set (n := length ps) in *.
  set (order := argsort Z Z.leb (rev ps)) in *.
  assert (Hne : order <> []).
  { intros E. rewrite E in Hperm. apply Permutation_length in Hperm.
    rewrite length_seq in Hperm. simpl in Hperm. lia. }
  destruct (exists_last Hne) as (order' & p & Hlast).
  rewrite Hlast in *.
  rewrite map_app, rev_app_distr. cbn [map rev app].
  assert (Hp : p < n).
  { assert (Hin : In p (seq 0 n)).
    { apply (Permutation_in _ Hperm), in_or_app. right. now left. }
    apply in_seq in Hin. lia. }
  assert (Hval : forall q, q < n -> nth q (rev ps) 0%Z = nth (n - S q) ps 0%Z).
  { intros q Hq. now apply rev_nth. }
  exists (n - S p), (rev (map (fun q => nth q (rev (seq 0 n)) 0) order')).
  split; [| split ].
  - f_equal. rewrite rev_nth by (rewrite length_seq; assumption).
    rewrite length_seq, seq_nth by lia. lia.
  - lia.
  - intros j Hj.
    assert (Hq : In (n - S j) (order' ++ [p])).
    { apply (Permutation_in _ (Permutation_sym Hperm)), in_seq. lia. }
    apply in_app_or in Hq as [Hq | [Hq | []]].
    + pose proof (sorted_below_last _ _ _ Hsorted _ Hq) as Hle.
      cbv beta in Hle.
      rewrite (Hval (n - S j)), (Hval p) in Hle by lia.
      now replace (n - S (n - S j)) with j in Hle by lia.
    + replace (n - S p) with j by lia. lia.
Qed.

(** The v0 Selector returns the name of a row with the most protein, for
    every sorting algorithm [sort_values] may use; which of several such
    rows is up to that algorithm.  It needs no [calories] column. *)
Theorem v0_find_highest_protein_cereal_spec
    (argsort : forall A : Type, (A -> A -> bool) -> list A -> list nat)
    (st : store) (df : ref) (t : DataFrame) (n : nat)
    (ps : list Z) (names : column) :
  V0.argsort_spec argsort ->
  st !! df = Some t ->
  Forall (fun hc => col_length (snd hc) = n) t ->
  0 < n ->
  get_label_values t "protein" = Return (IntCol ps) ->
  get_label_values t "name" = Return names ->
  exists m,
    m < n /\
    outcome (V0.find_highest_protein_cereal argsort df) st =
      Return (Scalar (cell names m)) /\
    (forall j, j < n -> (nth j ps 0 <= nth m ps 0)%Z).
Proof.
  intros Hspec Hdf Hlen Hn Hp Hname.
  assert (Ht : t <> []).
  { apply get_label_values_In in Hname. now destruct t. }
  assert (Hps : length ps = n)
    by exact (col_length_uniform t n _ _ Hlen Hp).
  destruct (nargsort_head_max argsort ps Hspec ltac:(lia))
    as (m & rest & Hhead & Hm & Hmax).
  exists m. rewrite <- Hps. split; [ assumption |]. split; [| assumption ].
  rewrite v0_find_run, (deref_at _ _ _ Hdf), Hp, Hhead, (iloc_take _ _ _ Ht).
  now apply getitem_row.
Qed.

Lemma v0_find_highest_protein_cereal_spec_witness :
  exists m,
    m < 3 /\
    outcome (V0.find_highest_protein_cereal V0.insertion_argsort 0)
      [no_calories_df] =
      Return (Scalar (cell (StrCol ["Bran"; "Oats"; "Honey-comb"]) m)) /\
    (forall j, j < 3 -> (nth j [4; 4; 1] 0 <= nth m [4; 4; 1] 0)%Z).
Proof.
  apply (v0_find_highest_protein_cereal_spec V0.insertion_argsort
           [no_calories_df] 0 no_calories_df 3 [4; 4; 1]%Z
           (StrCol ["Bran"; "Oats"; "Honey-comb"])).
  - exact insertion_argsort_spec.
  - reflexivity.
  - vm_compute. repeat constructor.
  - lia.
  - reflexivity.
  - reflexivity.
Defined.

(** Where the v0 Selector fails.  Without a column labelled exactly
    [protein] (an upper-case [PROTEIN] does not count: v0 has no
    Normalizer) it raises [KeyError('protein')] and adds nothing to the
    store; on a table with a [protein] column and no rows it raises the
    [IndexError] of [iloc[0]]. *)
Theorem v0_find_highest_protein_cereal_fails
    (argsort : forall A : Type, (A -> A -> bool) -> list A -> list nat)
    (st : store) (df : ref) (t : DataFrame) :
  st !! df = Some t ->
  (~ In "protein" (columns t) ->
   V0.find_highest_protein_cereal argsort df st =
     (st, Raise (KeyError "protein"))) /\
  (V0.argsort_spec argsort ->
   get_label_values t "protein" = Return (IntCol []) ->
   outcome (V0.find_highest_protein_cereal argsort df) st =
     Raise (IndexError "single positional indexer is out-of-bounds")).
Proof.
  intros Hdf. split.
  - intros Hno. rewrite v0_find_full, (deref_at _ _ _ Hdf).
    now rewrite (get_label_values_absent _ _ Hno).
  - intros Hspec Hp.
    rewrite v0_find_run, (deref_at _ _ _ Hdf), Hp.
    destruct (Hspec []) as [Hperm _]. cbn in Hperm.
    apply Permutation_sym, Permutation_nil in Hperm.
    unfold V0.nargsort. cbn [rev]. rewrite Hperm. cbn [map rev].
    now rewrite iloc_take_nil.
Qed.

Lemma v0_find_highest_protein_cereal_fails_witness :
  V0.find_highest_protein_cereal V0.insertion_argsort 0
    [uppercased test_df] =
    ([uppercased test_df], Raise (KeyError "protein")).
Proof.
  apply (v0_find_highest_protein_cereal_fails V0.insertion_argsort
           [uppercased test_df] 0 (uppercased test_df) eq_refl).
  vm_compute. intuition discriminate.
Defined.

(** ** Failure of the first step *)

(** When the Normalizer fails the pipeline stops there.  The exception is
    the Normalizer's, the Selector is not run (no sorted table is added to
    the store), and the loaded table is left with lower-cased headers. *)
Theorem pipeline_aborts_on_normalizer_failure
    (st : store) (df : ref) (t : DataFrame) :
  st !! df = Some t ->
  ~ In "name" (index_str_lower (columns t)) ->
  ~ In "brand" (index_str_lower (columns t)) ->
  V3.best_preworkout_cereal_pipeline df st =
    (<[df := lowercased t]> st,
     Raise (ValueError "df does not contain column 'name'")) /\
  length (fst (V3.best_preworkout_cereal_pipeline df st)) = length st.
Proof.
  intros Hdf Hname Hbrand.
  assert (Hrun : V3.best_preworkout_cereal_pipeline df st =
                 (<[df := lowercased t]> st,
                  Raise (ValueError "df does not contain column 'name'"))).
  { unfold V3.best_preworkout_cereal_pipeline, bind.
    rewrite (preprocess_cereals_run _ _ _ Hdf). cbv zeta.
    rewrite columns_lowercased.
    apply contains_not_In in Hname, Hbrand. now rewrite Hname, Hbrand. }
  split; [ exact Hrun |].
  rewrite Hrun. apply length_insert.
Qed.

Lemma pipeline_aborts_on_normalizer_failure_witness :
  V3.best_preworkout_cereal_pipeline 0 [anonymous_df] =
    ([lowercased anonymous_df],
     Raise (ValueError "df does not contain column 'name'")).
Proof.
  apply (pipeline_aborts_on_normalizer_failure [anonymous_df] 0 anonymous_df).
  - reflexivity.
  - vm_compute. intuition discriminate.
  - vm_compute. intuition discriminate.
Defined.
